(** * HackSprint: Chrome tab scanner and analysis orchestrator

    A shallow embedding of [streamlit_app.py]:

    - [fetch_all_chrome_urls] (lines 54-117), the scanner that walks the
      candidate remote-debugging ports and collects one record per content tab;
    - [analyze_urls] (lines 124-207), the orchestrator that composes the task
      text, runs the agent, normalises its answer and logs to Galileo.

    Both are [async] functions that run to completion under [asyncio.run]; they
    are embedded as computations in a state-and-exception monad whose state
    holds the function's local variables and the chronological list of calls
    made to the outside (Playwright, the agent, Galileo).  What the outside
    answers is a parameter, the [World].

    Conventions.
    - A Python [str] is a [string]; the literals of the program are ASCII.
    - An exception is a value of [exn]; it stands for an instance of Python's
      [Exception] class, the class every [except] clause of the program names.
      Interrupts of the process ([BaseException] outside [Exception]) are not
      modelled.
    - The [print] calls write diagnostics to the console and are left out. *)

From Stdlib Require Import String Ascii List ZArith Arith Bool Lia DecimalString.
From Stdlib Require Import Permutation Sorted.
Import ListNotations.
Local Open Scope string_scope.
Local Open Scope list_scope.

(** ** Exceptions and results *)

Inductive exn : Type :=
| Exception (msg : string)
| UnboundLocalError (name : string).

Inductive result (A : Type) : Type :=
| Ok (a : A)
| Raise (e : exn).
Arguments Ok {A} a.
Arguments Raise {A} e.

(** ** The monad: state that survives a raise

    A Python exception does not undo the assignments and the calls made before
    it, so a computation returns its final state also when it raises. *)

Section Effects.
Variable St : Type.

Definition M (A : Type) : Type := St -> result A * St.

Definition ret {A} (a : A) : M A := fun st => (Ok a, st).

Definition bind {A B} (m : M A) (k : A -> M B) : M B :=
  fun st =>
    match m st with
    | (Ok a, st') => k a st'
    | (Raise e, st') => (Raise e, st')
    end.

Definition get : M St := fun st => (Ok st, st).

Definition modify (f : St -> St) : M unit := fun st => (Ok tt, f st).

(** [try: m  except Exception as e: h e] *)
Definition try_except {A} (m : M A) (h : exn -> M A) : M A :=
  fun st =>
    match m st with
    | (Ok a, st') => (Ok a, st')
    | (Raise e, st') => h e st'
    end.

(** [try: m  finally: f]; a raise in [f] replaces the outcome of [m]. *)
Definition try_finally {A} (m : M A) (f : M unit) : M A :=
  fun st =>
    match m st with
    | (r, st') =>
        match f st' with
        | (Ok _, st'') => (r, st'')
        | (Raise e, st'') => (Raise e, st'')
        end
    end.

(** [for x in l: body x]; a raise in the body leaves the loop. *)
Fixpoint for_each {X} (l : list X) (body : X -> M unit) : M unit :=
  match l with
  | [] => ret tt
  | x :: l' => bind (body x) (fun _ => for_each l' body)
  end.
End Effects.

Arguments ret {St A} a.
Arguments bind {St A B} m k.
Arguments get {St}.
Arguments modify {St} f.
Arguments try_except {St A} m h.
Arguments try_finally {St A} m f.
Arguments for_each {St X} l body.

Declare Scope eff_scope.
Delimit Scope eff_scope with eff.
Notation "x <- m ;; k" := (bind m (fun x => k))
  (at level 61, m at next level, right associativity) : eff_scope.
Notation "m ;; k" := (bind m (fun _ => k))
  (at level 61, right associativity) : eff_scope.
Local Open Scope eff_scope.

(** ** Python built-ins used by the program *)

(** [enumerate(l)] *)
Fixpoint enumerate_from {X} (i : nat) (l : list X) : list (nat * X) :=
  match l with
  | [] => []
  | x :: l' => (i, x) :: enumerate_from (S i) l'
  end.

Definition enumerate {X} (l : list X) : list (nat * X) := enumerate_from 0 l.

(** [str(n)] for a non-negative integer. *)
Definition str (n : nat) : string := NilEmpty.string_of_uint (Nat.to_uint n).

(** The line break, Python's ['\n']. *)
Definition LF : string := String (ascii_of_nat 10) EmptyString.

(** The two characters backslash and [n], Python's ['\\n']. *)
Definition backslash : ascii := ascii_of_nat 92.
Definition BSLASH_N : string := String backslash (String "n"%char EmptyString).

(** [s.replace(old, new)]: occurrences of [old] are found from the left and do
    not overlap.  [skip] counts the characters of a matched occurrence that are
    still to be passed over.  With an empty [old], Python puts [new] before
    every character and at the end. *)
Fixpoint replace_from (old new : string) (skip : nat) (s : string) : string :=
  match s with
  | EmptyString => EmptyString
  | String c rest =>
      match skip with
      | S k => replace_from old new k rest
      | O =>
          if prefix old s
          then new ++ replace_from old new (String.length old - 1) rest
          else String c (replace_from old new 0 rest)
      end
  end.

Fixpoint interleave (new s : string) : string :=
  match s with
  | EmptyString => new
  | String c rest => new ++ String c (interleave new rest)
  end.

Definition replace (old new s : string) : string :=
  match old with
  | EmptyString => interleave new s
  | _ => replace_from old new 0 s
  end.

(** [s[n:]] *)
Fixpoint drop (n : nat) (s : string) : string :=
  match n, s with
  | O, _ => s
  | S k, String _ rest => drop k rest
  | S _, EmptyString => EmptyString
  end.

(** [x in s] *)
Fixpoint occurs (x s : string) : bool :=
  prefix x s
  || match s with
     | EmptyString => false
     | String _ rest => occurs x rest
     end.

(** Some occurrence of [x] in [s] has an occurrence of [y] after its end. *)
Fixpoint occurs_then (x y s : string) : bool :=
  (prefix x s && occurs y (drop (String.length x) s))
  || match s with
     | EmptyString => false
     | String _ rest => occurs_then x y rest
     end.

(** Truth value of a [str]: the empty string is false. *)
Definition truthy (s : string) : bool :=
  match s with
  | EmptyString => false
  | _ => true
  end.

(** ** Tab records: the [tab_info] dictionary of lines 84-90 *)

Record TabRecord : Type := {
  port : Z;
  window : nat;
  tab : nat;
  url : string;
  title : string
}.

(** ** The scanner, [fetch_all_chrome_urls] *)

Module Scanner.

(** A page as Playwright shows it: [page.url] is a property, [page.title()]
    is awaited and may raise (the page was closed or navigated away). *)
Record Page : Type := {
  page_url : string;
  page_title : result string
}.

(** A connected browser: its contexts, each a list of pages, and what
    awaiting [browser.close()] does. *)
Record Browser : Type := {
  contexts : list (list Page);
  close : result unit
}.

Record World : Type := {
  playwright_start : result unit;
  connect_over_cdp : Z -> result Browser;
  playwright_stop : result unit
}.

(** Calls made to Playwright, in the order they are made. *)
Inductive Event : Type :=
| EvStart
| EvConnect (p : Z)
| EvTitle (p : Z) (ctx_idx page_idx : nat)
| EvClose (p : Z)
| EvStop.

(** The locals [all_urls] and [connected_ports], and the calls so far. *)
Record State : Type := {
  all_urls : list TabRecord;
  connected_ports : list Z;
  trace : list Event
}.

Definition init : State :=
  {| all_urls := []; connected_ports := []; trace := [] |}.

(** Await an outside call: it is recorded, then returns or raises. *)
Definition await {A} (e : Event) (r : result A) : M State A :=
  fun st =>
    (r, {| all_urls := all_urls st;
           connected_ports := connected_ports st;
           trace := trace st ++ [e] |}).

(** [all_urls.append(tab_info)] *)
Definition append_tab (t : TabRecord) : M State unit :=
  modify (fun st =>
    {| all_urls := all_urls st ++ [t];
       connected_ports := connected_ports st;
       trace := trace st |}).

(** [connected_ports.append(port)] *)
Definition append_port (p : Z) : M State unit :=
  modify (fun st =>
    {| all_urls := all_urls st;
       connected_ports := connected_ports st ++ [p];
       trace := trace st |}).

Definition ports_to_check : list Z := [9222; 9223; 9224; 9225; 9226]%Z.

(** Line 81: [url in ['about:blank', 'chrome://newtab/', ''] or
    url.startswith('chrome://')]. *)
Definition excluded (u : string) : bool :=
  existsb (String.eqb u) ["about:blank"; "chrome://newtab/"; ""]
  || prefix "chrome://" u.

(** Lines 77-95, the body of the loop over pages. *)
Definition page_step (p : Z) (ctx_idx page_idx : nat) (page : Page)
  : M State unit :=
  try_except
    (let u := page_url page in
     t <- await (EvTitle p ctx_idx page_idx) (page_title page) ;;
     if excluded u then ret tt
     else
       append_tab {| port := p; window := ctx_idx + 1; tab := page_idx + 1;
                     url := u; title := t |})
    (fun _ => ret tt).

(** Lines 64-100, the body of the loop over ports. *)
Definition port_step (w : World) (p : Z) : M State unit :=
  try_except
    (browser <- await (EvConnect p) (connect_over_cdp w p) ;;
     append_port p ;;
     for_each (enumerate (contexts browser)) (fun '(ctx_idx, context) =>
       let pages := context in
       for_each (enumerate pages) (fun '(page_idx, page) =>
         page_step p ctx_idx page_idx page)) ;;
     await (EvClose p) (close browser))
    (fun _ => ret tt).

(** Lines 54-117. *)
Definition fetch_all_chrome_urls (w : World) : M State (list TabRecord) :=
  await EvStart (playwright_start w) ;;
  try_finally
    (try_except
       (for_each ports_to_check (port_step w) ;;
        st <- get ;;
        ret (all_urls st))
       (fun _ => ret []))
    (await EvStop (playwright_stop w)).

(** One call of the function, from fresh locals. *)
Definition run (w : World) : result (list TabRecord) * State :=
  fetch_all_chrome_urls w init.

(** *** The scan as the specification words it *)

(** The record of one page, if it has one. *)
Definition page_record (p : Z) (ctx_idx page_idx : nat) (page : Page)
  : list TabRecord :=
  match page_title page with
  | Raise _ => []
  | Ok t =>
      if excluded (page_url page) then []
      else [{| port := p; window := ctx_idx + 1; tab := page_idx + 1;
               url := page_url page; title := t |}]
  end.

(** The records of one context, in page order. *)
Definition context_records (p : Z) (ctx_idx : nat) (pages : list Page)
  : list TabRecord :=
  flat_map (fun '(page_idx, page) => page_record p ctx_idx page_idx page)
           (enumerate pages).

(** The records of one endpoint, in context order; none if unreachable. *)
Definition endpoint_records (w : World) (p : Z) : list TabRecord :=
  match connect_over_cdp w p with
  | Raise _ => []
  | Ok b =>
      flat_map (fun '(ctx_idx, pages) => context_records p ctx_idx pages)
               (enumerate (contexts b))
  end.

(** The records of a scan, in candidate-list order. *)
Definition spec_records (w : World) : list TabRecord :=
  flat_map (endpoint_records w) ports_to_check.

Definition answers (w : World) (p : Z) : bool :=
  match connect_over_cdp w p with
  | Ok _ => true
  | Raise _ => false
  end.

(** The endpoints that answered, in candidate-list order. *)
Definition reachable (w : World) : list Z :=
  filter (answers w) ports_to_check.

(** A state after more records, ports and calls were appended. *)
Definition extend (st : State) (recs : list TabRecord) (ps : list Z)
           (evs : list Event) : State :=
  {| all_urls := all_urls st ++ recs;
     connected_ports := connected_ports st ++ ps;
     trace := trace st ++ evs |}.

Definition is_connect (e : Event) : bool :=
  match e with
  | EvConnect _ => true
  | _ => false
  end.

(** A stretch of calls without a connection attempt. *)
Definition quiet (evs : list Event) : Prop :=
  Forall (fun e => is_connect e = false) evs.

(** *** The calls a scan makes *)

Definition context_events (p : Z) (ctx_idx : nat) (i : nat)
           (pages : list Page) : list Event :=
  map (fun '(page_idx, _) => EvTitle p ctx_idx page_idx)
      (enumerate_from i pages).

Definition browser_events (p : Z) (i : nat) (ctxs : list (list Page))
  : list Event :=
  flat_map (fun '(ctx_idx, pages) => context_events p ctx_idx 0 pages)
           (enumerate_from i ctxs).

(** What follows the connection attempt on port [p]. *)
Definition after_connect (w : World) (p : Z) : list Event :=
  match connect_over_cdp w p with
  | Raise _ => []
  | Ok b => browser_events p 0 (contexts b) ++ [EvClose p]
  end.

Definition port_events (w : World) (p : Z) : list Event :=
  EvConnect p :: after_connect w p.

(** *** Sample worlds *)

Definition refused : exn := Exception "connect ECONNREFUSED".

(** Port 9223 alone answers, with one window of two pages: a document and a
    blank page. *)
Definition world_one_browser : World :=
  {| playwright_start := Ok tt;
     connect_over_cdp := fun p =>
       if (p =? 9223)%Z then
         Ok {| contexts :=
                 [[ {| page_url := "https://x.test/a"; page_title := Ok "Docs" |};
                    {| page_url := "about:blank"; page_title := Ok "" |} ]];
               close := Ok tt |}
       else Raise refused;
     playwright_stop := Ok tt |}.

(** Ports 9222 and 9224 answer.  On 9222 a page closes while its title is
    read, an internal page has a title, and closing the browser fails. *)
Definition world_flaky : World :=
  {| playwright_start := Ok tt;
     connect_over_cdp := fun p =>
       if (p =? 9222)%Z then
         Ok {| contexts :=
                 [[ {| page_url := "https://a.test/";
                       page_title := Raise (Exception "Target closed") |};
                    {| page_url := "https://b.test/"; page_title := Ok "B" |} ];
                  [ {| page_url := "chrome://settings/";
                       page_title := Ok "Settings" |};
                    {| page_url := "https://b.test/"; page_title := Ok "B" |} ]];
               close := Raise (Exception "Connection closed") |}
       else if (p =? 9224)%Z then
         Ok {| contexts :=
                 [[ {| page_url := "https://c.test/"; page_title := Ok "" |} ]];
               close := Ok tt |}
       else Raise refused;
     playwright_stop := Ok tt |}.

(** [world_flaky] with port 9222 gone. *)
Definition world_flaky_less : World :=
  {| playwright_start := Ok tt;
     connect_over_cdp := fun p =>
       if (p =? 9222)%Z then Raise refused
       else connect_over_cdp world_flaky p;
     playwright_stop := Ok tt |}.

(** No endpoint answers. *)
Definition world_all_unreachable : World :=
  {| playwright_start := Ok tt;
     connect_over_cdp := fun _ => Raise refused;
     playwright_stop := Ok tt |}.

(** The Playwright driver itself does not start. *)
Definition world_no_driver : World :=
  {| playwright_start := Raise (Exception "Executable doesn't exist");
     connect_over_cdp := fun _ => Raise refused;
     playwright_stop := Ok tt |}.

End Scanner.

(** ** The orchestrator, [analyze_urls] *)

Module Orchestrator.

(** Keyword arguments of [logger.add_llm_span] (lines 183-191). *)
Record SpanArgs : Type := {
  span_input : string;
  span_output : string;
  span_model : string;
  num_input_tokens : nat;
  num_output_tokens : nat;
  total_tokens : nat;
  duration_ns : Z
}.

(** What the outside answers.  [GALILEO_AVAILABLE] is the module flag set by
    the guarded import of lines 41-48.  [agent_run] stands for lines 169-175:
    building the model and the agent, awaiting [agent.run()] and reading
    [final_result()], which is [None] or a string.  The two clock fields are
    the readings of [datetime.now().timestamp() * 1_000_000_000] at lines 164
    and 181, as integers. *)
Record World : Type := {
  GALILEO_AVAILABLE : bool;
  getenv : string -> option string;
  galileo_init : string -> string -> result unit;
  get_logger_instance : result unit;
  start_session : result unit;
  start_trace : string -> string -> result unit;
  clock_at_trace : Z;
  agent_run : string -> result (option string);
  clock_at_log : Z;
  add_llm_span : SpanArgs -> result unit;
  conclude : string -> result unit;
  flush : result unit;
  config_get : result unit
}.

(** Calls made to Galileo and to the agent, in the order they are made. *)
Inductive Event : Type :=
| EvInit (project log_stream : string)
| EvGetLogger
| EvStartSession
| EvStartTrace (name input : string)
| EvAgent (task : string)
| EvSpan (args : SpanArgs)
| EvConclude (output : string)
| EvFlush
| EvConfig.

(** The locals that are assigned inside [try] blocks, and the calls so far.
    [logger] is [false] for [None]; [start_time_ns] is [None] while the
    variable is unbound. *)
Record State : Type := {
  logger : bool;
  galileo_session_started : bool;
  start_time_ns : option Z;
  trace : list Event
}.

Definition init : State :=
  {| logger := false; galileo_session_started := false;
     start_time_ns := None; trace := [] |}.

Definition call {A} (e : Event) (r : result A) : M State A :=
  fun st =>
    (r, {| logger := logger st;
           galileo_session_started := galileo_session_started st;
           start_time_ns := start_time_ns st;
           trace := trace st ++ [e] |}).

Definition set_logger (b : bool) : M State unit :=
  modify (fun st =>
    {| logger := b;
       galileo_session_started := galileo_session_started st;
       start_time_ns := start_time_ns st;
       trace := trace st |}).

Definition set_session_started (b : bool) : M State unit :=
  modify (fun st =>
    {| logger := logger st;
       galileo_session_started := b;
       start_time_ns := start_time_ns st;
       trace := trace st |}).

Definition set_start_time (t : Z) : M State unit :=
  modify (fun st =>
    {| logger := logger st;
       galileo_session_started := galileo_session_started st;
       start_time_ns := Some t;
       trace := trace st |}).

(** Reading [start_time_ns] at line 181; unbound if line 164 never ran. *)
Definition read_start_time : M State Z :=
  fun st =>
    match start_time_ns st with
    | Some t => (Ok t, st)
    | None => (Raise (UnboundLocalError "start_time_ns"), st)
    end.

(** [os.getenv(key, default)] *)
Definition getenv_default (w : World) (key default : string) : string :=
  match getenv w key with
  | Some v => v
  | None => default
  end.

(** Line 149, one element of the list comprehension. *)
Definition tab_line (i : nat) (t : TabRecord) : string :=
  str (i + 1) ++ ". " ++ title t ++ " - " ++ url t.

(** Line 149. *)
Definition urls_text (tabs : list TabRecord) : string :=
  String.concat LF (map (fun '(i, t) => tab_line i t) (enumerate tabs)).

(** The text before the tab count, between the count and the list, between
    the list and the instruction, and after the instruction, in the f-string
    of lines 152-158. *)
Definition task_head : string := LF ++ "    I have ".
Definition task_mid : string :=
  " browser tabs saved. Here's the list:" ++ LF ++ "    " ++ LF ++ "    ".
Definition task_sep : string := LF ++ "    " ++ LF ++ "    ".
Definition task_tail : string := LF ++ "    ".

(** Lines 152-158. *)
Definition task (tabs : list TabRecord) (custom_task : string) : string :=
  task_head ++ str (List.length tabs) ++ task_mid
    ++ urls_text tabs ++ task_sep ++ custom_task ++ task_tail.

Definition ANALYSIS_FAILED : string := "Analysis failed".

(** Line 176. *)
Definition clean_analysis (analysis : option string) : string :=
  match analysis with
  | Some s => if truthy s then replace BSLASH_N LF s else ANALYSIS_FAILED
  | None => ANALYSIS_FAILED
  end.

(** Truth value of a list: [not tabs] holds of the empty list. *)
Definition no_tabs (tabs : list TabRecord) : bool :=
  match tabs with
  | [] => true
  | _ => false
  end.

(** [logger and galileo_session_started] *)
Definition telemetry_on : M State bool :=
  st <- get ;; ret (logger st && galileo_session_started st).

(** Lines 134-146. *)
Definition init_galileo (w : World) : M State unit :=
  if GALILEO_AVAILABLE w then
    try_except
      (let project_name :=
         getenv_default w "GALILEO_PROJECT_NAME" "chrome-tab-analyzer" in
       let log_stream :=
         getenv_default w "GALILEO_LOG_STREAM" "tab-analysis" in
       call (EvInit project_name log_stream)
            (galileo_init w project_name log_stream) ;;
       call EvGetLogger (get_logger_instance w) ;;
       set_logger true ;;
       call EvStartSession (start_session w) ;;
       set_session_started true)
      (fun _ => set_logger false)
  else ret tt.

(** Lines 161-166. *)
Definition open_trace (w : World) (tk : string) : M State unit :=
  on <- telemetry_on ;;
  if on then
    try_except
      (call (EvStartTrace "Browser Tab Analysis" tk)
            (start_trace w "Browser Tab Analysis" tk) ;;
       set_start_time (clock_at_trace w))
      (fun _ => ret tt)
  else ret tt.

(** Lines 179-205. *)
Definition log_to_galileo (w : World) (tk out : string) : M State unit :=
  on <- telemetry_on ;;
  if on then
    try_except
      (t0 <- read_start_time ;;
       let duration := (clock_at_log w - t0)%Z in
       let args :=
         {| span_input := tk;
            span_output := out;
            span_model := "browser-use-agent";
            num_input_tokens := String.length tk / 4;
            num_output_tokens := String.length out / 4;
            total_tokens := (String.length tk + String.length out) / 4;
            duration_ns := duration |} in
       call (EvSpan args) (add_llm_span w args) ;;
       call (EvConclude out) (conclude w out) ;;
       call EvFlush (flush w) ;;
       call EvConfig (config_get w))
      (fun _ => ret tt)
  else ret tt.

(** Lines 124-207.  The value returned is [None] or a string. *)
Definition analyze_urls (w : World) (tabs : list TabRecord)
           (custom_task : string) : M State (option string) :=
  if no_tabs tabs then ret None
  else
    init_galileo w ;;
    let tk := task tabs custom_task in
    open_trace w tk ;;
    analysis <- call (EvAgent tk) (agent_run w tk) ;;
    let out := clean_analysis analysis in
    log_to_galileo w tk out ;;
    ret (Some out).

(** One call of the function, from fresh locals. *)
Definition run (w : World) (tabs : list TabRecord) (custom_task : string)
  : result (option string) * State :=
  analyze_urls w tabs custom_task init.

(** The same world with the Galileo SDK absent. *)
Definition without_telemetry (w : World) : World :=
  {| GALILEO_AVAILABLE := false;
     getenv := getenv w;
     galileo_init := galileo_init w;
     get_logger_instance := get_logger_instance w;
     start_session := start_session w;
     start_trace := start_trace w;
     clock_at_trace := clock_at_trace w;
     agent_run := agent_run w;
     clock_at_log := clock_at_log w;
     add_llm_span := add_llm_span w;
     conclude := conclude w;
     flush := flush w;
     config_get := config_get w |}.

Definition is_agent (e : Event) : bool :=
  match e with
  | EvAgent _ => true
  | _ => false
  end.

(** Calls that record a span, conclude a trace or flush the logger. *)
Definition is_span_conclude_flush (e : Event) : bool :=
  match e with
  | EvSpan _ | EvConclude _ | EvFlush => true
  | _ => false
  end.

Definition is_telemetry (e : Event) : bool :=
  match e with
  | EvAgent _ => false
  | _ => true
  end.

(** Galileo calls other than span, conclude and flush. *)
Definition early (e : Event) : Prop :=
  is_telemetry e = true /\ is_span_conclude_flush e = false.

(** The caller's test at line 342, [if analysis:]. *)
Definition caller_accepts (r : option string) : bool :=
  match r with
  | Some s => truthy s
  | None => false
  end.

(** *** The normalisation as the specification words it: every backslash
    followed by [n] becomes a line break. *)
Fixpoint spec_unescape (s : string) : string :=
  match s with
  | EmptyString => EmptyString
  | String c rest =>
      match rest with
      | String d rest' =>
          if (Ascii.eqb c backslash && Ascii.eqb d "n"%char)%bool
          then LF ++ spec_unescape rest'
          else String c (spec_unescape rest)
      | EmptyString => String c EmptyString
      end
  end.

(** *** Sample inputs *)

Definition tabs1 : list TabRecord :=
  [ {| port := 9222; window := 1; tab := 1; url := "U"; title := "T" |} ].

(** Three tabs, two of them with the same address and title. *)
Definition tabs3 : list TabRecord :=
  [ {| port := 9222; window := 1; tab := 1;
       url := "https://x.test/a"; title := "Docs" |};
    {| port := 9222; window := 1; tab := 2;
       url := "https://y.test/b"; title := "News" |};
    {| port := 9223; window := 1; tab := 1;
       url := "https://x.test/a"; title := "Docs" |} ].

(** A world where Galileo is installed and [answer] is what the agent does.
    Opening the trace fails, so that line 164 never binds [start_time_ns]. *)
Definition world_answering (answer : result (option string)) : World :=
  {| GALILEO_AVAILABLE := true;
     getenv := fun _ => None;
     galileo_init := fun _ _ => Ok tt;
     get_logger_instance := Ok tt;
     start_session := Ok tt;
     start_trace := fun _ _ => Raise (Exception "trace rejected");
     clock_at_trace := 1000;
     agent_run := fun _ => answer;
     clock_at_log := 5000;
     add_llm_span := fun _ => Ok tt;
     conclude := fun _ => Ok tt;
     flush := Raise (Exception "flush timed out");
     config_get := Ok tt |}.

(** The same with a trace that opens and a flush that fails. *)
Definition world_logging (answer : result (option string)) : World :=
  {| GALILEO_AVAILABLE := true;
     getenv := fun _ => None;
     galileo_init := fun _ _ => Ok tt;
     get_logger_instance := Ok tt;
     start_session := Ok tt;
     start_trace := fun _ _ => Ok tt;
     clock_at_trace := 1000;
     agent_run := fun _ => answer;
     clock_at_log := 5000;
     add_llm_span := fun _ => Ok tt;
     conclude := fun _ => Ok tt;
     flush := Raise (Exception "flush timed out");
     config_get := Ok tt |}.

End Orchestrator.

(** ** More Python built-ins: whitespace and splitting

    For [isspace] a character stands for the code point of the same number;
    below 256 Python counts as white space the code points 9-13, 28-32, 133
    and 160. *)

Definition isspace (c : ascii) : bool :=
  let n := nat_of_ascii c in
  (((9 <=? n) && (n <=? 13)) || ((28 <=? n) && (n <=? 32))
   || (n =? 133) || (n =? 160))%nat.

(** [s.lstrip()] *)
Fixpoint lstrip (s : string) : string :=
  match s with
  | EmptyString => EmptyString
  | String c rest => if isspace c then lstrip rest else s
  end.

(** [s.rstrip()] *)
Fixpoint rstrip (s : string) : string :=
  match s with
  | EmptyString => EmptyString
  | String c rest =>
      match rstrip rest with
      | EmptyString => if isspace c then EmptyString else String c EmptyString
      | kept => String c kept
      end
  end.

(** [s.strip()] *)
Definition strip (s : string) : string := rstrip (lstrip s).

(** [s.split(sep, 1)] for a one-character [sep]: the string itself if [sep]
    does not occur, else what is before and what is after its first
    occurrence. *)
Fixpoint split_once (sep : ascii) (s : string) : list string :=
  match s with
  | EmptyString => [EmptyString]
  | String c rest =>
      if Ascii.eqb c sep then [EmptyString; rest]
      else
        match split_once sep rest with
        | before :: after => String c before :: after
        | [] => []
        end
  end.

(** [sorted(l)] on integers. *)
Fixpoint insert_sorted (k : Z) (l : list Z) : list Z :=
  match l with
  | [] => [k]
  | x :: l' => if (k <=? x)%Z then k :: l else x :: insert_sorted k l'
  end.

Definition sorted (l : list Z) : list Z := fold_right insert_sorted [] l.

(** [c in s] for a character [c]. *)
Definition has_char (c : ascii) (s : string) : Prop :=
  In c (list_ascii_of_string s).

(** ** The start of the module: the API key (lines 13-26) *)

Module Env.

Definition KEY : string := "BROWSER_USE_API_KEY".

(** Line 23, [line.split('=', 1)[1].strip()]; the index raises [IndexError]
    when the line has no [=]. *)
Definition key_of_line (line : string) : result string :=
  match split_once "="%char line with
  | _ :: after :: _ => Ok (strip after)
  | _ => Raise (Exception "IndexError: list index out of range")
  end.

(** Lines 21-26, the loop over the lines of [.env]: [None] when no line
    starts with the name of the variable. *)
Fixpoint scan_lines (lines : list string) : result (option string) :=
  match lines with
  | [] => Ok None
  | line :: rest =>
      if prefix KEY line then
        match key_of_line line with
        | Ok key => Ok (Some key)
        | Raise e => Raise e
        end
      else scan_lines rest
  end.

(** Lines 14-26.  [api_key] is what [os.getenv] gives once [load_dotenv] has
    run; [dotenv_file] is the lines of [.env], each with its line break, when
    the file exists.  The result is the value of the variable in
    [os.environ] afterwards. *)
Definition load_api_key (api_key : option string)
           (dotenv_file : option (list string)) : result (option string) :=
  let unset :=
    match api_key with
    | Some v => negb (truthy v)
    | None => true
    end in
  if unset then
    match dotenv_file with
    | Some lines =>
        match scan_lines lines with
        | Ok (Some key) => Ok (Some key)
        | Ok None => Ok api_key
        | Raise e => Raise e
        end
    | None => Ok api_key
    end
  else Ok api_key.

End Env.

(** ** The tab preview (lines 283-299) *)

Module Preview.

(** What the preview shows: the heading of a browser instance with its port
    and its number of tabs (line 290), the numbered title of a tab (line 293),
    its address (line 294), and the rule between two tabs (line 296). *)
Inductive Item : Type :=
| Heading (p : Z) (count : nat)
| TabTitle (n : nat) (t : string)
| Caption (u : string)
| Rule.

(** A [defaultdict(list)] keyed by port, keys in insertion order. *)
Definition Dict : Type := list (Z * list TabRecord).

(** [d[k].append(t)] *)
Fixpoint dict_append (k : Z) (t : TabRecord) (d : Dict) : Dict :=
  match d with
  | [] => [(k, [t])]
  | (k', ts) :: d' =>
      if (k =? k')%Z then (k', ts ++ [t]) :: d'
      else (k', ts) :: dict_append k t d'
  end.

(** [d[k]] *)
Fixpoint dict_get (k : Z) (d : Dict) : list TabRecord :=
  match d with
  | [] => []
  | (k', ts) :: d' => if (k =? k')%Z then ts else dict_get k d'
  end.

Definition dict_keys (d : Dict) : list Z := map fst d.

(** Lines 284-286.  Every record has a port, so the default of
    [tab.get('port', 'Unknown')] is never used. *)
Definition tabs_by_port (tabs : list TabRecord) : Dict :=
  fold_left (fun d t => dict_append (port t) t d) tabs [].

(** Lines 292-296, the items of one tab. *)
Definition tab_items (count : nat) (i : nat) (t : TabRecord) : list Item :=
  [TabTitle (i + 1) (title t); Caption (url t)]
  ++ (if (i <? count - 1)%nat then [Rule] else []).

(** Lines 289-296, the items of one port. *)
Definition port_items (d : Dict) (p : Z) : list Item :=
  let port_tabs := dict_get p d in
  Heading p (List.length port_tabs)
  :: flat_map (fun '(i, t) => tab_items (List.length port_tabs) i t)
              (enumerate port_tabs).

(** Lines 284-296. *)
Definition preview (tabs : list TabRecord) : list Item :=
  let d := tabs_by_port tabs in
  flat_map (port_items d) (sorted (dict_keys d)).

(** The tabs in the order the preview shows them. *)
Definition shown_tabs (tabs : list TabRecord) : list TabRecord :=
  let d := tabs_by_port tabs in
  flat_map (fun p => dict_get p d) (sorted (dict_keys d)).

(** The tab comes from port [p]. *)
Definition from_port (p : Z) (t : TabRecord) : bool := (port t =? p)%Z.


Definition is_rule (i : Item) : bool :=
  match i with
  | Rule => true
  | _ => false
  end.

Definition is_tab_title (i : Item) : bool :=
  match i with
  | TabTitle _ _ => true
  | _ => false
  end.

End Preview.

(** ** One run of the script, [main] (lines 214-379)

    Streamlit runs [main] again on every interaction.  A run is embedded
    through what it reads (the session state, which button was pressed and the
    text of the instruction), what it writes to the session state, the
    messages it shows and the calls the two [asyncio.run] make.  The widgets
    that neither read nor write the session state (title, side bar, the
    choice of a ready-made instruction) are left out. *)

Module App.

(** The keys ['tabs'], ['timestamp'] and ['analysis'] of [st.session_state];
    [None] for a key that is absent. *)
Record Session : Type := {
  ss_tabs : option (list TabRecord);
  ss_timestamp : option string;
  ss_analysis : option string
}.

Definition empty_session : Session :=
  {| ss_tabs := None; ss_timestamp := None; ss_analysis := None |}.

(** The dictionary of lines 364-370. *)
Record ExportData : Type := {
  ex_timestamp : option string;
  ex_total_tabs : nat;
  ex_task : string;
  ex_analysis : string;
  ex_tabs : list TabRecord
}.

(** What a run shows, with the line that shows it. *)
Inductive Message : Type :=
| FoundTabs (n : nat)           (* 271 *)
| NoTabsFound                   (* 273 *)
| TabsLoaded (n : nat)          (* 277 *)
| ShowPreview (items : list Preview.Item)   (* 283-299 *)
| PleaseEnterTask               (* 337 *)
| AnalysisComplete              (* 344 *)
| AnalysisFailed                (* 346 *)
| ShowAnalysis (text : string)  (* 352 *)
| DownloadText (text : string)  (* 357-362 *)
| DownloadJson (data : ExportData)   (* 364-377 *)
| ClickFetch.                   (* 379 *)

(** What a run reads from the page and from the clock. *)
Record Inputs : Type := {
  fetch_clicked : bool;
  analyze_clicked : bool;
  custom_task : string;
  now : string
}.

Record State : Type := {
  session : Session;
  shown : list Message;
  scan_calls : list Scanner.Event;
  analysis_calls : list Orchestrator.Event
}.

Definition start (s : Session) : State :=
  {| session := s; shown := []; scan_calls := []; analysis_calls := [] |}.

Definition show (m : Message) : M State unit :=
  modify (fun st =>
    {| session := session st; shown := shown st ++ [m];
       scan_calls := scan_calls st; analysis_calls := analysis_calls st |}).

Definition set_session (s : Session) : M State unit :=
  modify (fun st =>
    {| session := s; shown := shown st;
       scan_calls := scan_calls st; analysis_calls := analysis_calls st |}).

(** [asyncio.run(fetch_all_chrome_urls())] *)
Definition run_fetch (sw : Scanner.World) : M State (list TabRecord) :=
  fun st =>
    let (r, final) := Scanner.run sw in
    (r, {| session := session st; shown := shown st;
           scan_calls := scan_calls st ++ Scanner.trace final;
           analysis_calls := analysis_calls st |}).

(** [asyncio.run(analyze_urls(tabs, custom_task))] *)
Definition run_analysis (ow : Orchestrator.World) (tabs : list TabRecord)
           (task : string) : M State (option string) :=
  fun st =>
    let (r, final) := Orchestrator.run ow tabs task in
    (r, {| session := session st; shown := shown st;
           scan_calls := scan_calls st;
           analysis_calls := analysis_calls st ++ Orchestrator.trace final |}).

(** Lines 264-273. *)
Definition fetch_button (sw : Scanner.World) (inp : Inputs) : M State unit :=
  tabs <- run_fetch sw ;;
  if Orchestrator.no_tabs tabs then show NoTabsFound
  else
    st <- get ;;
    set_session {| ss_tabs := Some tabs;
                   ss_timestamp := ss_timestamp (session st);
                   ss_analysis := ss_analysis (session st) |} ;;
    st <- get ;;
    set_session {| ss_tabs := ss_tabs (session st);
                   ss_timestamp := Some (now inp);
                   ss_analysis := ss_analysis (session st) |} ;;
    show (FoundTabs (List.length tabs)).

(** Lines 335-346. *)
Definition analyze_button (ow : Orchestrator.World) (inp : Inputs)
           (tabs : list TabRecord) : M State unit :=
  if negb (truthy (strip (custom_task inp))) then show PleaseEnterTask
  else
    analysis <- run_analysis ow tabs (custom_task inp) ;;
    if Orchestrator.caller_accepts analysis then
      st <- get ;;
      set_session {| ss_tabs := ss_tabs (session st);
                     ss_timestamp := ss_timestamp (session st);
                     ss_analysis := analysis |} ;;
      show AnalysisComplete
    else show AnalysisFailed.

(** Lines 349-377. *)
Definition show_analysis (inp : Inputs) (tabs : list TabRecord)
  : M State unit :=
  st <- get ;;
  match ss_analysis (session st) with
  | Some a =>
      show (ShowAnalysis a) ;;
      show (DownloadText a) ;;
      show (DownloadJson {| ex_timestamp := ss_timestamp (session st);
                            ex_total_tabs := List.length tabs;
                            ex_task := custom_task inp;
                            ex_analysis := a;
                            ex_tabs := tabs |})
  | None => ret tt
  end.

(** Lines 262-379. *)
Definition main (sw : Scanner.World) (ow : Orchestrator.World) (inp : Inputs)
  : M State unit :=
  (if fetch_clicked inp then fetch_button sw inp else ret tt) ;;
  st <- get ;;
  (match ss_tabs (session st) with
   | Some l => show (TabsLoaded (List.length l))
   | None => ret tt
   end) ;;
  st <- get ;;
  match ss_tabs (session st) with
  | Some tabs =>
      if Orchestrator.no_tabs tabs then show ClickFetch
      else
        show (ShowPreview (Preview.preview tabs)) ;;
        (if analyze_clicked inp then analyze_button ow inp tabs else ret tt) ;;
        show_analysis inp tabs
  | None => show ClickFetch
  end.

(** One run of the script on a session. *)
Definition run (sw : Scanner.World) (ow : Orchestrator.World) (inp : Inputs)
           (s : Session) : result unit * State :=
  main sw ow inp (start s).

(** What every session the script leaves satisfies: a stored list of tabs is
    not empty and comes with a time stamp, and a stored analysis is not empty
    and comes with a list of tabs. *)
Definition well_formed (s : Session) : Prop :=
  (forall l, ss_tabs s = Some l -> l <> [])
  /\ (ss_tabs s = None <-> ss_timestamp s = None)
  /\ (forall a, ss_analysis s = Some a -> truthy a = true /\ ss_tabs s <> None).

(** Sessions reached from the empty one by runs of the script; a run that
    raises leaves the session as it is at the raise. *)
Inductive reachable : Session -> Prop :=
| reach_empty : reachable empty_session
| reach_run sw ow inp s r st :
    reachable s ->
    run sw ow inp s = (r, st) ->
    reachable (session st).

(** *** Sample inputs *)

Definition press_fetch : Inputs :=
  {| fetch_clicked := true; analyze_clicked := false;
     custom_task := "List topics"; now := "2025-01-01T12:00:00" |}.

Definition press_analyze : Inputs :=
  {| fetch_clicked := false; analyze_clicked := true;
     custom_task := "List topics"; now := "2025-01-01T12:05:00" |}.

(** Tabs of an earlier scan with their analysis. *)
Definition earlier_session : Session :=
  {| ss_tabs := Some Orchestrator.tabs3;
     ss_timestamp := Some "2025-01-01T11:00:00";
     ss_analysis := Some "Two topics: docs and news." |}.

End App.

(** ** Auxiliary notions for the statements below *)

(** Where a record was found: port, window and tab. *)
Definition key (r : TabRecord) : Z * nat * nat := (port r, window r, tab r).

Definition is_ok {A} (r : result A) : bool :=
  match r with
  | Ok _ => true
  | Raise _ => false
  end.

Module Telemetry.
Import Orchestrator.

Definition project_name (w : World) : string :=
  getenv_default w "GALILEO_PROJECT_NAME" "chrome-tab-analyzer".

Definition log_stream (w : World) : string :=
  getenv_default w "GALILEO_LOG_STREAM" "tab-analysis".

(** The three calls of lines 139-141 all succeeded. *)
Definition session_started (w : World) : bool :=
  GALILEO_AVAILABLE w
  && is_ok (galileo_init w (project_name w) (log_stream w))
  && is_ok (get_logger_instance w)
  && is_ok (start_session w).

(** The trace of line 163 was opened as well. *)
Definition trace_opened (w : World) (tk : string) : bool :=
  session_started w && is_ok (start_trace w "Browser Tab Analysis" tk).

(** The calls of lines 139-141, up to the first that fails. *)
Definition init_events (w : World) : list Event :=
  if GALILEO_AVAILABLE w then
    EvInit (project_name w) (log_stream w)
    :: (if is_ok (galileo_init w (project_name w) (log_stream w)) then
          EvGetLogger
          :: (if is_ok (get_logger_instance w) then [EvStartSession] else [])
        else [])
  else [].

Definition span_args (w : World) (tk out : string) : SpanArgs :=
  {| span_input := tk;
     span_output := out;
     span_model := "browser-use-agent";
     num_input_tokens := String.length tk / 4;
     num_output_tokens := String.length out / 4;
     total_tokens := (String.length tk + String.length out) / 4;
     duration_ns := (clock_at_log w - clock_at_trace w)%Z |}.

(** The calls of lines 183-198, up to the first that fails. *)
Definition log_events (w : World) (tk out : string) : list Event :=
  if trace_opened w tk then
    EvSpan (span_args w tk out)
    :: (if is_ok (add_llm_span w (span_args w tk out)) then
          EvConclude out
          :: (if is_ok (conclude w out) then
                EvFlush :: (if is_ok (flush w) then [EvConfig] else [])
              else [])
        else [])
  else [].

(** The calls made before the agent returns or raises. *)
Definition calls_up_to_agent (w : World) (tk : string) : list Event :=
  init_events w
  ++ (if session_started w then [EvStartTrace "Browser Tab Analysis" tk]
      else [])
  ++ [EvAgent tk].

(** The locals when the function is left. *)
Definition final_state (w : World) (tk : string) (calls : list Event) : State :=
  {| logger := session_started w;
     galileo_session_started := session_started w;
     start_time_ns :=
       if trace_opened w tk then Some (clock_at_trace w) else None;
     trace := calls |}.

Definition is_start_trace (e : Event) : bool :=
  match e with
  | EvStartTrace _ _ => true
  | _ => false
  end.

(** Calls that log the outcome of an analysis. *)
Definition is_logging (e : Event) : bool :=
  match e with
  | EvSpan _ | EvConclude _ | EvFlush | EvConfig => true
  | _ => false
  end.

(** A world where Galileo is installed but starting the session fails. *)
Definition world_failing_session (answer : result (option string)) : World :=
  {| GALILEO_AVAILABLE := true;
     getenv := fun _ => None;
     galileo_init := fun _ _ => Ok tt;
     get_logger_instance := Ok tt;
     start_session := Raise (Exception "unauthorized");
     start_trace := fun _ _ => Ok tt;
     clock_at_trace := 1000;
     agent_run := fun _ => answer;
     clock_at_log := 5000;
     add_llm_span := fun _ => Ok tt;
     conclude := fun _ => Ok tt;
     flush := Ok tt;
     config_get := Ok tt |}.

End Telemetry.

(** * Facts about the scanner *)

Section ScannerFacts.
Import Scanner.

Lemma extend_nil st : extend st [] [] [] = st.
Proof.
  destruct st; unfold extend; simpl.
  now rewrite !app_nil_r.
Qed.

Lemma extend_extend st r1 p1 e1 r2 p2 e2 :
  extend (extend st r1 p1 e1) r2 p2 e2
  = extend st (r1 ++ r2) (p1 ++ p2) (e1 ++ e2).
Proof.
  unfold extend; simpl. now rewrite !app_assoc.
Qed.

(** The body of the page loop never raises: it reads the title once and
    appends the page's record, if it has one. *)
Lemma page_step_run p ci pi page st :
  page_step p ci pi page st
  = (Ok tt, extend st (page_record p ci pi page) [] [EvTitle p ci pi]).
Proof.
  unfold page_step, page_record, try_except, bind, await, append_tab,
    modify, ret, extend.
  destruct (page_title page) as [t | e]; simpl.
  - destruct (excluded (page_url page)); simpl;
      now rewrite ?app_nil_r.
  - now rewrite !app_nil_r.
Qed.

Lemma pages_loop_run p ci pages : forall i st,
  for_each (enumerate_from i pages)
           (fun '(page_idx, page) => page_step p ci page_idx page) st
  = (Ok tt,
     extend st
       (flat_map (fun '(page_idx, page) => page_record p ci page_idx page)
                 (enumerate_from i pages))
       [] (context_events p ci i pages)).
Proof.
  induction pages as [| page pages IH]; intros i st; simpl.
  - unfold ret. now rewrite extend_nil.
  - unfold bind. rewrite page_step_run, IH, extend_extend. reflexivity.
Qed.

Lemma contexts_loop_run p ctxs : forall i st,
  for_each (enumerate_from i ctxs)
           (fun '(ctx_idx, context) =>
              let pages := context in
              for_each (enumerate pages)
                       (fun '(page_idx, page) =>
                          page_step p ctx_idx page_idx page)) st
  = (Ok tt,
     extend st
       (flat_map (fun '(ctx_idx, pages) => context_records p ctx_idx pages)
                 (enumerate_from i ctxs))
       [] (browser_events p i ctxs)).
Proof.
  induction ctxs as [| pages ctxs IH]; intros i st; simpl.
  - unfold ret. now rewrite extend_nil.
  - unfold bind, enumerate. rewrite pages_loop_run, IH, extend_extend.
    reflexivity.
Qed.

(** The body of the port loop never raises either: a failed connection and a
    failed close are both absorbed by the handler of line 99. *)
Lemma port_step_run w p st :
  port_step w p st
  = (Ok tt,
     extend st (endpoint_records w p)
            (if answers w p then [p] else [])
            (port_events w p)).
Proof.
  unfold port_step, endpoint_records, answers, port_events, after_connect,
    try_except, bind at 1 2, await at 1.
  destruct (connect_over_cdp w p) as [b | e]; simpl.
  - unfold append_port, modify, bind, enumerate.
    rewrite contexts_loop_run. unfold await, ret, extend; simpl.
    destruct (close b) as [[] | e]; simpl; now rewrite <- !app_assoc.
  - unfold ret, extend; simpl. now rewrite !app_nil_r.
Qed.

Lemma ports_loop_run w l : forall st,
  for_each l (port_step w) st
  = (Ok tt,
     extend st (flat_map (endpoint_records w) l) (filter (answers w) l)
            (flat_map (port_events w) l)).
Proof.
  induction l as [| p l IH]; intros st; simpl.
  - unfold ret. now rewrite extend_nil.
  - unfold bind. rewrite port_step_run, IH, extend_extend.
    destruct (answers w p); reflexivity.
Qed.

(** The whole run, in closed form. *)
Lemma run_eq w :
  run w =
  match playwright_start w with
  | Raise e =>
      (Raise e, {| all_urls := []; connected_ports := []; trace := [EvStart] |})
  | Ok _ =>
      (match playwright_stop w with
       | Ok _ => Ok (spec_records w)
       | Raise e => Raise e
       end,
       {| all_urls := spec_records w;
          connected_ports := reachable w;
          trace := EvStart :: flat_map (port_events w) ports_to_check
                             ++ [EvStop] |})
  end.
Proof.
  unfold run, fetch_all_chrome_urls, bind at 1, await at 1.
  destruct (playwright_start w) as [[] | e]; cbv beta iota; [| reflexivity].
  unfold try_finally, try_except, bind. rewrite ports_loop_run.
  unfold get, ret, await, extend, spec_records, reachable.
  destruct (playwright_stop w) as [[] | e]; reflexivity.
Qed.

End ScannerFacts.

Section ScannerClaims.
Import Scanner.

Lemma flat_map_filter {A B} (f : A -> list B) (g : A -> bool) (l : list A) :
  (forall x, g x = false -> f x = []) ->
  flat_map f l = flat_map f (filter g l).
Proof.
  intros Hf. induction l as [| x l IH]; simpl; [reflexivity |].
  destruct (g x) eqn:Hg; simpl.
  - now rewrite IH.
  - now rewrite (Hf x Hg).
Qed.

Lemma unreachable_no_records w p :
  answers w p = false -> endpoint_records w p = [].
Proof.
  unfold answers, endpoint_records.
  now destruct (connect_over_cdp w p).
Qed.

Lemma flat_map_filter_ext {A B} (f f' : A -> list B) (g : A -> bool)
      (l : list A) :
  (forall x, g x = true -> f x = f' x) ->
  flat_map f (filter g l) = flat_map f' (filter g l).
Proof.
  intros Hf. induction l as [| x l IH]; simpl; [reflexivity |].
  destruct (g x) eqn:Hg; simpl; [| exact IH].
  now rewrite IH, (Hf x Hg).
Qed.

(** C1.  When the driver starts and stops, a scan returns the records of the
    candidate ports 9222, 9223, 9224, 9225, 9226 in that order, each port's
    records in context order and each context's in page order; leaving the
    unreachable ports out of the concatenation gives the same sequence, and
    a scan in which some of the endpoints no longer answer returns the
    records of the remaining ones, unchanged and in the same order. *)
Theorem scan_order w :
  playwright_start w = Ok tt ->
  playwright_stop w = Ok tt ->
  fst (run w) = Ok (flat_map (endpoint_records w) ports_to_check)
  /\ ports_to_check = [9222; 9223; 9224; 9225; 9226]%Z
  /\ flat_map (endpoint_records w) ports_to_check
     = flat_map (endpoint_records w) (reachable w)
  /\ forall w',
       playwright_start w' = Ok tt ->
       playwright_stop w' = Ok tt ->
       (forall p, connect_over_cdp w' p = connect_over_cdp w p
                  \/ answers w' p = false) ->
       fst (run w') = Ok (flat_map (endpoint_records w) (reachable w')).
Proof.
  intros Hstart Hstop. rewrite run_eq, Hstart, Hstop.
  split; [reflexivity |]. split; [reflexivity |]. split.
  - apply flat_map_filter, unreachable_no_records.
  - intros w' Hstart' Hstop' Hless. rewrite run_eq, Hstart', Hstop'.
    cbn [fst]. f_equal. unfold spec_records.
    rewrite (flat_map_filter _ (answers w')) by apply unreachable_no_records.
    apply flat_map_filter_ext. intros p Hp.
    destruct (Hless p) as [Hsame | Hdown]; [| congruence].
    unfold endpoint_records. now rewrite Hsame.
Qed.

Lemma scan_order_witness :
  playwright_start world_flaky = Ok tt
  /\ playwright_stop world_flaky = Ok tt
  /\ fst (run world_flaky)
     = Ok (flat_map (endpoint_records world_flaky) ports_to_check)
  /\ flat_map (endpoint_records world_flaky) ports_to_check
     = flat_map (endpoint_records world_flaky) [9222; 9224]%Z
  /\ fst (run world_flaky_less)
     = Ok (flat_map (endpoint_records world_flaky) [9224]%Z).
Proof.
  split; [reflexivity |]. split; [reflexivity |].
  destruct (scan_order world_flaky eq_refl eq_refl)
    as (Hrun & _ & Hskip & Hless).
  split; [exact Hrun |]. split; [exact Hskip |].
  apply (Hless world_flaky_less); try reflexivity.
  intros p. unfold answers. cbn [connect_over_cdp world_flaky_less].
  destruct (p =? 9222)%Z; [right | left]; reflexivity.
Defined.

(** The scan of one browser on port 9223, with a document and a blank page. *)
Example scan_one_browser :
  fst (run world_one_browser)
  = Ok [{| port := 9223; window := 1; tab := 1;
           url := "https://x.test/a"; title := "Docs" |}]
  /\ connected_ports (snd (run world_one_browser)) = [9223%Z].
Proof. split; reflexivity. Qed.

Lemma prefix_app s t : prefix s (s ++ t)%string = true.
Proof.
  induction s as [| c s IH]; simpl; [now destruct t |].
  destruct (ascii_dec c c) as [_ | Hc]; [exact IH | now elim Hc].
Qed.

(** The test of line 81 holds of the four kinds of address. *)
Lemma excluded_spec u :
  u = "" \/ u = "about:blank" \/ u = "chrome://newtab/"
  \/ (exists rest, u = ("chrome://" ++ rest)%string) ->
  excluded u = true.
Proof.
  unfold excluded.
  intros [-> | [-> | [-> | [rest ->]]]]; try reflexivity.
  rewrite prefix_app. apply orb_true_r.
Qed.

Lemma page_record_url p ci pi page r :
  In r (page_record p ci pi page) -> excluded (url r) = false.
Proof.
  unfold page_record.
  destruct (page_title page) as [t | e]; [| intros []].
  destruct (excluded (page_url page)) eqn:Hx; [intros [] |].
  intros [<- | []]. exact Hx.
Qed.

Lemma spec_records_url w r :
  In r (spec_records w) -> excluded (url r) = false.
Proof.
  unfold spec_records, endpoint_records, context_records.
  intros H. apply in_flat_map in H as (p & _ & H).
  destruct (connect_over_cdp w p) as [b | e]; [| destruct H].
  apply in_flat_map in H as ([ci pages] & _ & H).
  apply in_flat_map in H as ([pi page] & _ & H).
  eapply page_record_url; eassumption.
Qed.

(** C2.  A page whose address is empty, [about:blank], [chrome://newtab/] or
    begins with [chrome://] adds no record, whatever reading its title gives,
    and no record of any scan carries such an address. *)
Theorem scan_excludes_internal_pages u :
  u = "" \/ u = "about:blank" \/ u = "chrome://newtab/"
  \/ (exists rest, u = ("chrome://" ++ rest)%string) ->
  (forall p ci pi t st,
      all_urls (snd (page_step p ci pi {| page_url := u; page_title := t |} st))
      = all_urls st)
  /\ (forall w recs r, fst (run w) = Ok recs -> In r recs -> url r <> u).
Proof.
  intros Hu. apply excluded_spec in Hu. split.
  - intros p ci pi t st. rewrite page_step_run. unfold page_record; simpl.
    rewrite Hu. destruct t; simpl; apply app_nil_r.
  - intros w recs r Hrun Hin Heq.
    rewrite run_eq in Hrun.
    destruct (playwright_start w) as [[] | e]; [| discriminate].
    destruct (playwright_stop w) as [[] | e]; [| discriminate].
    simpl in Hrun. injection Hrun as <-.
    apply spec_records_url in Hin. congruence.
Qed.

Lemma scan_excludes_internal_pages_witness :
  (exists rest, "chrome://settings/" = ("chrome://" ++ rest)%string)
  /\ (forall p ci pi t st,
      all_urls (snd (page_step p ci pi
                       {| page_url := "chrome://settings/"; page_title := t |} st))
      = all_urls st)
  /\ (forall w recs r, fst (run w) = Ok recs -> In r recs ->
                       url r <> "chrome://settings/").
Proof.
  assert (H : exists rest, "chrome://settings/" = ("chrome://" ++ rest)%string)
    by (exists "settings/"; reflexivity).
  split; [exact H |].
  apply (scan_excludes_internal_pages "chrome://settings/").
  right; right; right. exact H.
Defined.

(** C3, as stated, fails: when the Playwright driver does not start, line 56
    raises outside every [try] and the scanner raises to its caller. *)
Lemma scanner_raises_without_driver :
  fst (run world_no_driver) = Raise (Exception "Executable doesn't exist")
  /\ ~ (exists recs, fst (run world_no_driver) = Ok recs).
Proof.
  split; [reflexivity |].
  intros [recs H]. discriminate H.
Qed.

(** C3, amended.  Once the driver has started, and if stopping it does not
    fail, the scanner returns whatever the endpoints, pages and closes do;
    when no candidate endpoint answers it returns the empty list and its
    list of connected ports is empty. *)
Theorem scan_returns_once_started w :
  playwright_start w = Ok tt ->
  playwright_stop w = Ok tt ->
  (exists recs, fst (run w) = Ok recs)
  /\ ((forall p, In p ports_to_check -> answers w p = false) ->
      fst (run w) = Ok [] /\ connected_ports (snd (run w)) = []).
Proof.
  intros Hstart Hstop. rewrite run_eq, Hstart, Hstop. simpl fst; simpl snd.
  split; [eexists; reflexivity |].
  intros Hdown; cbn [connected_ports]. split.
  - f_equal. unfold spec_records.
    induction ports_to_check as [| p l IH]; [reflexivity |].
    simpl. rewrite unreachable_no_records by (apply Hdown; now left).
    apply IH. intros q Hq. apply Hdown. now right.
  - unfold reachable.
    induction ports_to_check as [| p l IH]; [reflexivity |].
    simpl. rewrite Hdown by now left.
    apply IH. intros q Hq. apply Hdown. now right.
Qed.

Lemma scan_returns_once_started_witness :
  playwright_start world_all_unreachable = Ok tt
  /\ playwright_stop world_all_unreachable = Ok tt
  /\ (forall p, In p ports_to_check -> answers world_all_unreachable p = false)
  /\ (exists recs, fst (run world_all_unreachable) = Ok recs)
  /\ fst (run world_all_unreachable) = Ok []
  /\ connected_ports (snd (run world_all_unreachable)) = [].
Proof.
  assert (Hdown : forall p, In p ports_to_check ->
                            answers world_all_unreachable p = false)
    by (intros p _; reflexivity).
  split; [reflexivity |]. split; [reflexivity |]. split; [exact Hdown |].
  destruct (scan_returns_once_started world_all_unreachable eq_refl eq_refl)
    as [Hret Hempty].
  split; [exact Hret |].
  apply Hempty. exact Hdown.
Defined.

End ScannerClaims.

Section ScannerRelease.
Import Scanner.

Lemma browser_events_quiet p ctxs : forall i, quiet (browser_events p i ctxs).
Proof.
  unfold quiet, browser_events, context_events.
  intros i. apply Forall_forall. intros e He.
  apply in_flat_map in He as ([ci pages] & _ & He).
  apply in_map_iff in He as ([pi page] & <- & _). reflexivity.
Qed.

Lemma after_connect_quiet w p : quiet (after_connect w p).
Proof.
  unfold after_connect.
  destruct (connect_over_cdp w p) as [b | e]; [| constructor].
  apply Forall_app. split; [apply browser_events_quiet |].
  now repeat constructor.
Qed.

(** A connection attempt found in [a ++ r] lies in [r] when [a] has none. *)
Lemma quiet_split a : forall r x y p,
  quiet a ->
  a ++ r = x ++ EvConnect p :: y ->
  exists x', x = a ++ x' /\ r = x' ++ EvConnect p :: y.
Proof.
  induction a as [| e a IH]; intros r x y p Hq Heq; simpl in *.
  - now exists x.
  - inversion Hq as [| ? ? He Ha]; subst.
    destruct x as [| e' x]; simpl in Heq.
    + injection Heq as -> _. discriminate He.
    + injection Heq as <- Heq.
      destruct (IH _ _ _ _ Ha Heq) as (x' & -> & ->).
      now exists x'.
Qed.

(** Every connection attempt in the calls of the port loop is followed at
    once by what [after_connect] lists for that port. *)
Lemma ports_split w l : forall tl pre p post,
  quiet tl ->
  flat_map (port_events w) l ++ tl = pre ++ EvConnect p :: post ->
  exists rest, post = after_connect w p ++ rest.
Proof.
  induction l as [| q l IH]; intros tl pre p post Htl Heq; simpl in Heq.
  - exfalso. subst tl. apply Forall_app in Htl as [_ Htl].
    inversion Htl as [| ? ? He _]. discriminate He.
  - rewrite <- app_assoc in Heq.
    destruct pre as [| e pre]; simpl in Heq.
    + injection Heq as -> Heq. eexists. symmetry. exact Heq.
    + injection Heq as _ Heq.
      apply quiet_split in Heq as (x' & _ & Heq);
        [| apply after_connect_quiet].
      eapply IH; eassumption.
Qed.

(** C4.  In the calls of any scan, a connection attempt on a port that
    answers is followed by the close of that port's browser before any
    further connection attempt, whatever the reads of the page titles in
    between give. *)
Theorem connection_closed_before_next_port w pre p post b :
  trace (snd (run w)) = pre ++ EvConnect p :: post ->
  connect_over_cdp w p = Ok b ->
  exists mid rest,
    post = mid ++ EvClose p :: rest
    /\ Forall (fun e => is_connect e = false) mid.
Proof.
  intros Htrace Hconn. rewrite run_eq in Htrace.
  destruct (playwright_start w) as [[] | e]; cbn [snd trace] in Htrace.
  - destruct pre as [| e pre]; [discriminate Htrace |].
    injection Htrace as _ Htrace.
    destruct (ports_split w ports_to_check [EvStop] pre p post)
      as [rest ->]; [now repeat constructor | exact Htrace |].
    unfold after_connect. rewrite Hconn.
    exists (browser_events p 0 (contexts b)), rest. split.
    + now rewrite <- app_assoc.
    + apply browser_events_quiet.
  - destruct pre as [| e' [| e'' pre]]; discriminate Htrace.
Qed.

Lemma connection_closed_before_next_port_witness :
  trace (snd (run world_flaky))
  = [EvStart] ++ EvConnect 9222
      :: [EvTitle 9222 0 0; EvTitle 9222 0 1; EvTitle 9222 1 0;
          EvTitle 9222 1 1; EvClose 9222; EvConnect 9223; EvConnect 9224;
          EvTitle 9224 0 0; EvClose 9224; EvConnect 9225; EvConnect 9226;
          EvStop]
  /\ (exists b, connect_over_cdp world_flaky 9222 = Ok b
                /\ close b = Raise (Exception "Connection closed"))
  /\ exists mid rest,
       [EvTitle 9222 0 0; EvTitle 9222 0 1; EvTitle 9222 1 0;
        EvTitle 9222 1 1; EvClose 9222; EvConnect 9223; EvConnect 9224;
        EvTitle 9224 0 0; EvClose 9224; EvConnect 9225; EvConnect 9226;
        EvStop]
       = mid ++ EvClose 9222 :: rest
       /\ Forall (fun e => is_connect e = false) mid.
Proof.
  split; [reflexivity |].
  split; [eexists; split; reflexivity |].
  eapply (connection_closed_before_next_port world_flaky [EvStart] 9222);
    reflexivity.
Defined.

End ScannerRelease.

(** * Facts about the orchestrator *)

Section OrchestratorFacts.
Import Orchestrator.

Ltac run_calls :=
  repeat match goal with
    | |- context [match ?r with Ok _ => _ | Raise _ => _ end] =>
        destruct r as [[] | ?]; cbn
    end.

Ltac trace_ext :=
  eexists; eexists; split; [reflexivity |];
  split; [cbn; rewrite <- ?app_assoc; cbn; try reflexivity;
          symmetry; apply app_nil_r |];
  repeat constructor.

(** Lines 134-146 never raise. *)
Lemma init_galileo_run w st :
  exists st' evs,
    init_galileo w st = (Ok tt, st')
    /\ trace st' = trace st ++ evs
    /\ Forall early evs.
Proof.
  unfold init_galileo.
  destruct (GALILEO_AVAILABLE w); [| unfold ret; trace_ext].
  unfold try_except, bind, call, set_logger, set_session_started, modify.
  cbn. run_calls; trace_ext.
Qed.

(** Lines 161-166 never raise. *)
Lemma open_trace_run w tk st :
  exists st' evs,
    open_trace w tk st = (Ok tt, st')
    /\ trace st' = trace st ++ evs
    /\ Forall early evs.
Proof.
  unfold open_trace, telemetry_on, bind at 1 2, get, ret at 1. cbn.
  destruct (logger st && galileo_session_started st);
    [| unfold ret; trace_ext].
  unfold try_except, bind, call, set_start_time, modify, ret.
  cbn. run_calls; trace_ext.
Qed.

(** Lines 179-205 never raise. *)
Lemma log_to_galileo_run w tk out st :
  exists st' evs,
    log_to_galileo w tk out st = (Ok tt, st')
    /\ trace st' = trace st ++ evs
    /\ Forall (fun e => is_telemetry e = true) evs.
Proof.
  unfold log_to_galileo, telemetry_on, bind at 1 2, get, ret at 1. cbn.
  destruct (logger st && galileo_session_started st);
    [| unfold ret; trace_ext].
  unfold try_except, bind at 1, read_start_time.
  destruct (start_time_ns st) as [t0 |]; [| unfold ret; trace_ext].
  unfold bind, call, ret. cbn. run_calls; trace_ext.
Qed.

End OrchestratorFacts.

Section OrchestratorRun.
Import Orchestrator.

(** With an empty list the function returns [None] at line 128. *)
Lemma run_no_tabs w ct : run w [] ct = (Ok None, init).
Proof. reflexivity. Qed.

(** With tabs, the outcome is the agent's: its answer normalised, or its
    exception.  The agent is called once with the task text; before it come
    only early Galileo calls, after it only Galileo calls, and none at all
    if the agent raised. *)
Lemma run_with_tabs w tabs ct :
  tabs <> [] ->
  exists st evs1 evs2,
    run w tabs ct
    = (match agent_run w (task tabs ct) with
       | Ok a => Ok (Some (clean_analysis a))
       | Raise e => Raise e
       end, st)
    /\ trace st = evs1 ++ EvAgent (task tabs ct) :: evs2
    /\ Forall early evs1
    /\ Forall (fun e => is_telemetry e = true) evs2
    /\ (forall e, agent_run w (task tabs ct) = Raise e -> evs2 = []).
Proof.
  intros Htabs. unfold run, analyze_urls.
  destruct tabs as [| t ts]; [contradiction |]. cbn [no_tabs]. cbv zeta.
  set (tk := task (t :: ts) ct).
  unfold bind at 1.
  destruct (init_galileo_run w init) as (st1 & evs1 & -> & Ht1 & He1).
  cbv beta iota. unfold bind at 1.
  destruct (open_trace_run w tk st1) as (st2 & evs2 & -> & Ht2 & He2).
  cbv beta iota. unfold bind at 1, call at 1.
  assert (Hpre : trace st2 = evs1 ++ evs2)
    by (rewrite Ht2, Ht1; reflexivity).
  assert (Hearly : Forall early (evs1 ++ evs2))
    by (apply Forall_app; now split).
  destruct (agent_run w tk) as [a | e]; cbv beta iota.
  - unfold bind at 1.
    match goal with
    | |- context [log_to_galileo w tk ?out ?s] =>
        destruct (log_to_galileo_run w tk out s)
          as (st3 & evs3 & -> & Ht3 & He3)
    end.
    cbv beta iota. unfold ret.
    exists st3, (evs1 ++ evs2), evs3. repeat split; try assumption.
    + rewrite Ht3. cbn [trace]. rewrite Hpre, <- app_assoc. reflexivity.
    + discriminate.
  - eexists; exists (evs1 ++ evs2), []. repeat split; try assumption.
    + cbn [trace]. now rewrite Hpre.
    + constructor.
Qed.

Lemma run_result w tabs ct :
  tabs <> [] ->
  fst (run w tabs ct)
  = match agent_run w (task tabs ct) with
    | Ok a => Ok (Some (clean_analysis a))
    | Raise e => Raise e
    end.
Proof.
  intros Htabs.
  destruct (run_with_tabs w tabs ct Htabs) as (st & ? & ? & -> & _).
  reflexivity.
Qed.

End OrchestratorRun.

(** * Facts about strings *)

Section StringFacts.
Import Orchestrator.

Lemma prefix_empty s : prefix "" s = true.
Proof. now destruct s. Qed.

Lemma append_assoc (a b c : string) : ((a ++ b) ++ c = a ++ (b ++ c))%string.
Proof. induction a as [| x a IH]; simpl; [reflexivity | now rewrite IH]. Qed.

Lemma drop_append (a b : string) : drop (String.length a) (a ++ b) = b.
Proof. induction a as [| x a IH]; simpl; [reflexivity | exact IH]. Qed.

Lemma prefix_cons a s1 b s2 :
  prefix (String a s1) (String b s2) = (Ascii.eqb a b && prefix s1 s2)%bool.
Proof.
  cbn [prefix].
  destruct (ascii_dec a b) as [-> | Hab].
  - now rewrite Ascii.eqb_refl.
  - apply Ascii.eqb_neq in Hab. now rewrite Hab.
Qed.

Lemma prefix_cons_empty a s : prefix (String a s) "" = false.
Proof. reflexivity. Qed.

Lemma replace_from_step old new c rest :
  replace_from old new 0 (String c rest)
  = if prefix old (String c rest)
    then (new ++ replace_from old new (String.length old - 1) rest)%string
    else String c (replace_from old new 0 rest).
Proof. reflexivity. Qed.

Lemma spec_unescape_step c d r :
  spec_unescape (String c (String d r))
  = if (Ascii.eqb c backslash && Ascii.eqb d "n")%bool
    then (LF ++ spec_unescape r)%string
    else String c (spec_unescape (String d r)).
Proof. reflexivity. Qed.

(** Python's [replace] of backslash-n by a line break is the replacement of
    every backslash followed by [n]. *)
Lemma replace_from_unescape s :
  replace_from BSLASH_N LF 0 s = spec_unescape s
  /\ forall c, replace_from BSLASH_N LF 0 (String c s)
               = spec_unescape (String c s).
Proof.
  unfold BSLASH_N.
  induction s as [| d s [IH1 IH2]].
  - split; [reflexivity |]. intros c.
    cbn [replace_from spec_unescape].
    rewrite prefix_cons, prefix_cons_empty, andb_false_r. reflexivity.
  - split; [apply IH2 |]. intros c.
    rewrite replace_from_step, spec_unescape_step.
    rewrite !prefix_cons, prefix_empty, andb_true_r.
    rewrite (Ascii.eqb_sym backslash c), (Ascii.eqb_sym "n" d).
    destruct (Ascii.eqb c backslash && Ascii.eqb d "n").
    + cbn [String.length Nat.sub]. cbn [replace_from].
      now rewrite IH1.
    + now rewrite IH2.
Qed.

Lemma replace_unescape s : replace BSLASH_N LF s = spec_unescape s.
Proof. apply replace_from_unescape. Qed.

Lemma unescape_truthy s : truthy s = true -> truthy (spec_unescape s) = true.
Proof.
  destruct s as [| c [| d r]]; cbn [spec_unescape truthy]; try easy.
  now destruct (Ascii.eqb c backslash && Ascii.eqb d "n").
Qed.

Lemma unescape_head d s :
  Ascii.eqb d "n" = false -> prefix "n" (spec_unescape (String d s)) = false.
Proof.
  intros Hd. destruct s as [| e r]; cbn [spec_unescape].
  - now rewrite prefix_cons, Ascii.eqb_sym, Hd.
  - destruct (Ascii.eqb d backslash && Ascii.eqb e "n").
    + reflexivity.
    + now rewrite prefix_cons, Ascii.eqb_sym, Hd.
Qed.

(** No backslash followed by [n] is left in the normalised text. *)
Lemma unescape_complete s :
  occurs BSLASH_N (spec_unescape s) = false
  /\ forall c, occurs BSLASH_N (spec_unescape (String c s)) = false.
Proof.
  induction s as [| d s [IH1 IH2]].
  - split; [reflexivity |]. intros c.
    cbn [spec_unescape occurs]. unfold BSLASH_N.
    rewrite prefix_cons, prefix_cons_empty, andb_false_r. reflexivity.
  - split; [apply IH2 |]. intros c.
    rewrite spec_unescape_step.
    destruct (Ascii.eqb c backslash) eqn:Hc; cbn [andb].
    + destruct (Ascii.eqb d "n") eqn:Hd.
      * cbn [LF append occurs]. rewrite IH1, orb_false_r. reflexivity.
      * cbn [occurs]. rewrite IH2, orb_false_r.
        unfold BSLASH_N. rewrite prefix_cons, unescape_head by exact Hd.
        apply andb_false_r.
    + cbn [occurs]. rewrite IH2, orb_false_r.
      unfold BSLASH_N. now rewrite prefix_cons, Ascii.eqb_sym, Hc.
Qed.

(** [occurs] and [occurs_then] find every occurrence. *)
Lemma occurs_complete x : forall pre post,
  occurs x (pre ++ x ++ post) = true.
Proof.
  induction pre as [| c pre IH]; intros post.
  - cbn [append]. destruct (x ++ post)%string eqn:E; cbn [occurs];
      rewrite <- E, prefix_app; reflexivity.
  - cbn. rewrite IH. apply orb_true_r.
Qed.

Lemma occurs_then_complete x y : forall pre mid post,
  occurs_then x y (pre ++ x ++ mid ++ y ++ post) = true.
Proof.
  induction pre as [| c pre IH]; intros mid post.
  - cbn [append].
    assert (H : (prefix x (x ++ mid ++ y ++ post)
                 && occurs y (drop (String.length x) (x ++ mid ++ y ++ post)))
                = true).
    { rewrite prefix_app, drop_append. apply occurs_complete. }
    destruct (x ++ mid ++ y ++ post)%string eqn:E; cbn [occurs_then];
      rewrite H; reflexivity.
  - cbn. rewrite IH. apply orb_true_r.
Qed.

Lemma nth_error_enumerate_from {X} (l : list X) : forall k i x,
  nth_error l i = Some x ->
  nth_error (enumerate_from k l) i = Some (k + i, x).
Proof.
  induction l as [| y l IH]; intros k [| i] x H; simpl in *; try discriminate.
  - injection H as ->. now rewrite Nat.add_0_r.
  - rewrite (IH (S k) i x H). f_equal. f_equal. lia.
Qed.

Lemma length_enumerate_from {X} (l : list X) : forall k,
  List.length (enumerate_from k l) = List.length l.
Proof. induction l; intros k; simpl; [reflexivity | now rewrite IHl]. Qed.

End StringFacts.

(** * The orchestrator's claims *)

Section OrchestratorClaims.
Import Orchestrator.

(** C5.  With an empty list of tabs the analysis returns [None] at once: no
    call is made to the agent or to Galileo, no local is assigned, and the
    outcome is the same whatever the instruction and the outside are. *)
Theorem empty_inventory_rejected w ct :
  fst (run w [] ct) = Ok None
  /\ trace (snd (run w [] ct)) = []
  /\ snd (run w [] ct) = init
  /\ forall w' ct', run w' [] ct' = run w [] ct.
Proof. repeat split. Qed.

(** C6.  When the agent returns for a non-empty list of tabs, the text
    handed back is ["Analysis failed"] if the agent's final result is [None]
    or empty, and otherwise that result with every backslash followed by [n]
    turned into a line break, none being left; so [line1\nline2], written
    with a backslash, comes back as two lines. *)
Theorem normalised_output w tabs ct raw :
  tabs <> [] ->
  agent_run w (task tabs ct) = Ok raw ->
  (raw = None \/ raw = Some "" ->
   fst (run w tabs ct) = Ok (Some "Analysis failed"))
  /\ (forall s, raw = Some s -> s <> "" ->
        fst (run w tabs ct) = Ok (Some (spec_unescape s))
        /\ occurs BSLASH_N (spec_unescape s) = false)
  /\ clean_analysis (Some ("line1" ++ BSLASH_N ++ "line2")%string)
     = ("line1" ++ LF ++ "line2")%string.
Proof.
  intros Htabs Hagent. rewrite (run_result w tabs ct Htabs), Hagent.
  repeat split.
  - intros [-> | ->]; reflexivity.
  - subst raw. unfold clean_analysis.
    destruct s as [| c s]; [contradiction |].
    cbn [truthy]. now rewrite replace_unescape.
  - apply unescape_complete.
Qed.

Lemma normalised_output_witness :
  tabs3 <> []
  /\ agent_run (world_logging (Ok (Some ("line1" ++ BSLASH_N ++ "line2")%string)))
               (task tabs3 "List topics")
     = Ok (Some ("line1" ++ BSLASH_N ++ "line2")%string)
  /\ fst (run (world_logging (Ok (Some ("line1" ++ BSLASH_N ++ "line2")%string)))
              tabs3 "List topics")
     = Ok (Some ("line1" ++ LF ++ "line2")%string).
Proof.
  assert (Htabs : tabs3 <> []) by discriminate.
  split; [exact Htabs |]. split; [reflexivity |].
  destruct (normalised_output
              (world_logging (Ok (Some ("line1" ++ BSLASH_N ++ "line2")%string)))
              tabs3 "List topics" _ Htabs eq_refl) as (_ & H & _).
  destruct (H _ eq_refl) as [Hrun _]; [discriminate |].
  exact Hrun.
Defined.

(** C7, as stated, fails: in the task text the count of tabs comes before
    the numbered lines, not after them.  For one tab [T]/[U] and the
    instruction [X], no [1] follows the line [1. T - U]. *)
Lemma count_not_after_lines :
  ~ exists pre mid post,
      task tabs1 "X"
      = (pre ++ urls_text tabs1 ++ mid ++ str (List.length tabs1) ++ post)%string.
Proof.
  intros (pre & mid & post & H).
  pose proof (occurs_then_complete (urls_text tabs1) (str (List.length tabs1))
                                   pre mid post) as Hocc.
  rewrite <- H in Hocc. vm_compute in Hocc. discriminate Hocc.
Qed.

Lemma telemetry_not_agent evs :
  Forall (fun e => is_telemetry e = true) evs -> filter is_agent evs = [].
Proof.
  induction 1 as [| e evs He _ IH]; [reflexivity |].
  simpl. rewrite IH. now destruct e.
Qed.

Lemma early_telemetry evs :
  Forall early evs -> Forall (fun e => is_telemetry e = true) evs.
Proof. apply Forall_impl. now intros e [He _]. Qed.

(** C7, amended.  The task text is a function of the tabs and the
    instruction alone: a sentence carrying the count of tabs, then the tabs
    as lines [i. title - url] numbered from 1 in list order and joined by
    line breaks, then the instruction as given; the agent is called once,
    with that text.  For three tabs there are three such lines and the
    count reads 3. *)
Theorem task_layout tabs ct :
  exists lines,
    task tabs ct
    = (LF ++ "    I have " ++ str (List.length tabs)
          ++ " browser tabs saved. Here's the list:" ++ LF ++ "    " ++ LF
          ++ "    " ++ String.concat LF lines ++ LF ++ "    " ++ LF
          ++ "    " ++ ct ++ LF ++ "    ")%string
    /\ List.length lines = List.length tabs
    /\ (forall i t, nth_error tabs i = Some t ->
          nth_error lines i
          = Some (str (i + 1) ++ ". " ++ title t ++ " - " ++ url t)%string)
    /\ (forall w, tabs <> [] ->
          filter is_agent (trace (snd (run w tabs ct)))
          = [EvAgent (task tabs ct)])
    /\ task tabs3 "List topics"
       = (LF ++ "    I have 3 browser tabs saved. Here's the list:" ++ LF
             ++ "    " ++ LF
             ++ "    1. Docs - https://x.test/a" ++ LF
             ++ "2. News - https://y.test/b" ++ LF
             ++ "3. Docs - https://x.test/a" ++ LF
             ++ "    " ++ LF
             ++ "    List topics" ++ LF ++ "    ")%string.
Proof.
  exists (map (fun '(i, t) => tab_line i t) (enumerate tabs)).
  split; [| split; [| split; [| split]]].
  - unfold task, task_head, task_mid, task_sep, task_tail, urls_text.
    now rewrite !append_assoc.
  - unfold enumerate. now rewrite length_map, length_enumerate_from.
  - intros i t Hi. unfold enumerate.
    now rewrite nth_error_map, (nth_error_enumerate_from tabs 0 i t Hi).
  - intros w Htabs.
    destruct (run_with_tabs w tabs ct Htabs)
      as (st & evs1 & evs2 & Hrun & Htr & H1 & H2 & _).
    rewrite Hrun. cbn [snd]. rewrite Htr, filter_app. cbn [filter is_agent].
    rewrite (telemetry_not_agent evs1) by now apply early_telemetry.
    now rewrite (telemetry_not_agent evs2).
  - reflexivity.
Qed.

End OrchestratorClaims.

Section OrchestratorFailures.
Import Orchestrator.

Lemma task_layout_witness :
  exists lines,
    List.length lines = 3
    /\ nth_error lines 1 = Some "2. News - https://y.test/b"
    /\ filter is_agent
              (trace (snd (run (world_logging (Ok None)) tabs3 "List topics")))
       = [EvAgent (task tabs3 "List topics")].
Proof.
  destruct (task_layout tabs3 "List topics")
    as (lines & _ & Hlen & Hnth & Hagent & _).
  exists lines. split; [exact Hlen |]. split.
  - exact (Hnth 1 _ eq_refl).
  - apply Hagent. discriminate.
Defined.

Lemma run_without_telemetry w tabs ct :
  Forall (fun e => is_telemetry e = false)
         (trace (snd (run (without_telemetry w) tabs ct))).
Proof.
  unfold run, analyze_urls.
  destruct tabs as [| t ts]; [constructor |].
  cbn [no_tabs]. cbv zeta.
  unfold init_galileo, open_trace, log_to_galileo, telemetry_on.
  cbn [GALILEO_AVAILABLE without_telemetry agent_run].
  unfold bind, get, ret, call, init. cbn [logger andb].
  destruct (agent_run w (task (t :: ts) ct)); cbn; now repeat constructor.
Qed.

(** C8.  Whatever each Galileo call does (initialisation, opening the trace,
    recording the span, concluding, flushing), the analysis returns what it
    returns with the SDK absent, where no Galileo call is made at all; and
    when the analysis raises, the exception is the agent's. *)
Theorem telemetry_never_changes_result w tabs ct :
  fst (run w tabs ct) = fst (run (without_telemetry w) tabs ct)
  /\ Forall (fun e => is_telemetry e = false)
            (trace (snd (run (without_telemetry w) tabs ct)))
  /\ forall e, fst (run w tabs ct) = Raise e ->
               agent_run w (task tabs ct) = Raise e.
Proof.
  split; [| split; [apply run_without_telemetry |]].
  - destruct tabs as [| t ts]; [reflexivity |].
    now rewrite !run_result by discriminate.
  - intros e. destruct tabs as [| t ts]; [discriminate |].
    rewrite run_result by discriminate.
    destruct (agent_run w (task (t :: ts) ct)); [discriminate | trivial].
Qed.

Lemma telemetry_never_changes_result_witness :
  fst (run (world_answering (Ok (Some "done"))) tabs3 "List topics")
  = fst (run (without_telemetry (world_answering (Ok (Some "done"))))
             tabs3 "List topics")
  /\ fst (run (world_logging (Raise (Exception "timeout"))) tabs3 "List topics")
     = Raise (Exception "timeout")
  /\ agent_run (world_logging (Raise (Exception "timeout")))
               (task tabs3 "List topics")
     = Raise (Exception "timeout").
Proof.
  split.
  - apply (telemetry_never_changes_result
             (world_answering (Ok (Some "done"))) tabs3 "List topics").
  - split; [reflexivity |].
    apply (telemetry_never_changes_result
             (world_logging (Raise (Exception "timeout"))) tabs3 "List topics").
    reflexivity.
Defined.

(** C9.  When the agent raises, the analysis raises the same exception: no
    text is returned and no span, conclude or flush call is made.  When the
    agent returns nothing or an empty text, the analysis returns the marker
    instead. *)
Theorem agent_failure_propagates w tabs ct e :
  tabs <> [] ->
  agent_run w (task tabs ct) = Raise e ->
  fst (run w tabs ct) = Raise e
  /\ Forall (fun ev => is_span_conclude_flush ev = false)
            (trace (snd (run w tabs ct)))
  /\ forall w',
       agent_run w' (task tabs ct) = Ok None
       \/ agent_run w' (task tabs ct) = Ok (Some "") ->
       fst (run w' tabs ct) = Ok (Some ANALYSIS_FAILED).
Proof.
  intros Htabs Hagent. split; [| split].
  - now rewrite run_result, Hagent.
  - destruct (run_with_tabs w tabs ct Htabs)
      as (st & evs1 & evs2 & Hrun & Htr & H1 & _ & Hnil).
    rewrite Hrun. cbn [snd]. rewrite Htr, (Hnil e Hagent).
    apply Forall_app. split.
    + revert H1. apply Forall_impl. now intros ev [_ Hev].
    + now repeat constructor.
  - intros w' [H | H]; now rewrite run_result, H.
Qed.

Lemma agent_failure_propagates_witness :
  tabs3 <> []
  /\ agent_run (world_logging (Raise (Exception "timeout")))
               (task tabs3 "List topics")
     = Raise (Exception "timeout")
  /\ fst (run (world_logging (Raise (Exception "timeout")))
              tabs3 "List topics")
     = Raise (Exception "timeout")
  /\ Forall (fun ev => is_span_conclude_flush ev = false)
            (trace (snd (run (world_logging (Raise (Exception "timeout")))
                             tabs3 "List topics")))
  /\ fst (run (world_logging (Ok None)) tabs3 "List topics")
     = Ok (Some ANALYSIS_FAILED).
Proof.
  assert (Htabs : tabs3 <> []) by discriminate.
  split; [exact Htabs |]. split; [reflexivity |].
  destruct (agent_failure_propagates
              (world_logging (Raise (Exception "timeout")))
              tabs3 "List topics" _ Htabs eq_refl) as (Hraise & Hquiet & Hsoft).
  split; [exact Hraise |]. split; [exact Hquiet |].
  apply Hsoft. left. reflexivity.
Defined.

(** C10.  The analysis returns [None] exactly when the list of tabs is
    empty.  For a non-empty list, whenever the agent returns, the analysis
    returns a non-empty string, which the caller's test accepts; it is the
    marker when the agent's result was [None] or empty. *)
Theorem none_only_without_tabs w tabs ct :
  (fst (run w tabs ct) = Ok None <-> tabs = [])
  /\ (tabs <> [] ->
      forall raw, agent_run w (task tabs ct) = Ok raw ->
      exists s,
        fst (run w tabs ct) = Ok (Some s)
        /\ truthy s = true
        /\ caller_accepts (Some s) = true
        /\ (raw = None \/ raw = Some "" -> s = ANALYSIS_FAILED)).
Proof.
  split.
  - split.
    + destruct tabs as [| t ts]; [reflexivity |].
      rewrite run_result by discriminate.
      destruct (agent_run w (task (t :: ts) ct)); discriminate.
    + intros ->. reflexivity.
  - intros Htabs raw Hagent. rewrite run_result, Hagent by exact Htabs.
    exists (clean_analysis raw).
    assert (Htruthy : truthy (clean_analysis raw) = true).
    { unfold clean_analysis. destruct raw as [s |]; [| reflexivity].
      destruct (truthy s) eqn:Hs; [| reflexivity].
      rewrite replace_unescape. now apply unescape_truthy. }
    repeat split; try exact Htruthy.
    intros [-> | ->]; reflexivity.
Qed.

Lemma none_only_without_tabs_witness :
  tabs3 <> []
  /\ agent_run (world_answering (Ok (Some ""))) (task tabs3 "List topics")
     = Ok (Some "")
  /\ exists s,
       fst (run (world_answering (Ok (Some ""))) tabs3 "List topics")
       = Ok (Some s)
       /\ truthy s = true
       /\ caller_accepts (Some s) = true
       /\ s = ANALYSIS_FAILED.
Proof.
  assert (Htabs : tabs3 <> []) by discriminate.
  split; [exact Htabs |]. split; [reflexivity |].
  destruct (none_only_without_tabs (world_answering (Ok (Some "")))
                                   tabs3 "List topics") as [_ H].
  destruct (H Htabs _ eq_refl) as (s & Hrun & Ht & Hc & Hm).
  exists s. repeat split; try assumption.
  apply Hm. right. reflexivity.
Defined.

End OrchestratorFailures.

(** * More about the scanner *)

Section ScannerRecords.
Import Scanner.

Lemma in_enumerate_from {X} (l : list X) : forall k i x,
  In (i, x) (enumerate_from k l) <-> k <= i /\ nth_error l (i - k) = Some x.
Proof.
  induction l as [| y l IH]; intros k i x; simpl.
  - split; [intros [] | intros [_ H]]. now destruct (i - k).
  - rewrite IH. split.
    + intros [H | [Hle H]].
      * injection H as <- <-. split; [lia |]. now rewrite Nat.sub_diag.
      * split; [lia |]. replace (i - k) with (S (i - S k)) by lia. exact H.
    + intros [Hle H]. destruct (Nat.eq_dec i k) as [-> | Hne].
      * left. rewrite Nat.sub_diag in H. simpl in H. congruence.
      * right. split; [lia |].
        replace (i - k) with (S (i - S k)) in H by lia. exact H.
Qed.

Lemma in_enumerate {X} (l : list X) i x :
  In (i, x) (enumerate l) <-> nth_error l i = Some x.
Proof.
  unfold enumerate. rewrite in_enumerate_from, Nat.sub_0_r.
  split; [now intros [_ H] | intros H; split; [lia | exact H]].
Qed.

Lemma in_page_record p ci pi page r :
  In r (page_record p ci pi page)
  <-> r = {| port := p; window := ci + 1; tab := pi + 1;
             url := page_url page; title := title r |}
      /\ page_title page = Ok (title r)
      /\ excluded (page_url page) = false.
Proof.
  unfold page_record. split.
  - destruct (page_title page) as [t | e]; [| intros []].
    destruct (excluded (page_url page)); [intros [] |].
    intros [<- | []]. now repeat split.
  - intros (Hr & Ht & Hx). rewrite Ht, Hx. left. now rewrite Hr at 2.
Qed.

(** Membership in the records of a scan, read off the browsers. *)
Lemma in_spec_records w r :
  In r (spec_records w)
  <-> exists b ci pi pages page,
        In (port r) ports_to_check
        /\ connect_over_cdp w (port r) = Ok b
        /\ window r = ci + 1
        /\ nth_error (contexts b) ci = Some pages
        /\ tab r = pi + 1
        /\ nth_error pages pi = Some page
        /\ page_url page = url r
        /\ page_title page = Ok (title r)
        /\ excluded (url r) = false.
Proof.
  unfold spec_records, endpoint_records, context_records. split.
  - intros H. apply in_flat_map in H as (p & Hp & H).
    destruct (connect_over_cdp w p) as [b | e] eqn:Hb; [| destruct H].
    apply in_flat_map in H as ([ci pages] & Hci & H).
    apply in_flat_map in H as ([pi page] & Hpi & H).
    apply in_enumerate in Hci. apply in_enumerate in Hpi.
    apply in_page_record in H as (Hr & Ht & Hx).
    exists b, ci, pi, pages, page. rewrite Hr; simpl.
    rewrite Hr in Ht; simpl in Ht.
    now repeat split.
  - intros (b & ci & pi & pages & page & Hp & Hb & Hw & Hci & Htab & Hpi
            & Hu & Ht & Hx).
    apply in_flat_map. exists (port r). split; [exact Hp |]. rewrite Hb.
    apply in_flat_map. exists (ci, pages).
    split; [now apply in_enumerate |].
    apply in_flat_map. exists (pi, page).
    split; [now apply in_enumerate |].
    apply in_page_record. rewrite Hu. repeat split; try assumption.
    destruct r; simpl in *. now subst.
Qed.

Lemma run_returns w recs :
  fst (run w) = Ok recs ->
  recs = spec_records w
  /\ connected_ports (snd (run w)) = reachable w
  /\ playwright_start w = Ok tt.
Proof.
  rewrite run_eq.
  destruct (playwright_start w) as [[] | e]; [| discriminate].
  destruct (playwright_stop w) as [[] | e]; [| discriminate].
  simpl. intros H. injection H as <-. now repeat split.
Qed.

(** X1.  A record is in the list a scan returns exactly when it describes a
    page of a browser that answered on a candidate port: [window] and [tab]
    are the positions, counted from 1 and counting the pages left out as
    well, of the page's context and of the page in it; the page's address is
    the record's and is not a left-out one, and reading its title gave the
    record's title. *)
Theorem record_iff_page w recs r :
  fst (run w) = Ok recs ->
  (In r recs
   <-> exists b ci pi pages page,
         In (port r) ports_to_check
         /\ connect_over_cdp w (port r) = Ok b
         /\ window r = ci + 1
         /\ nth_error (contexts b) ci = Some pages
         /\ tab r = pi + 1
         /\ nth_error pages pi = Some page
         /\ page_url page = url r
         /\ page_title page = Ok (title r)
         /\ excluded (url r) = false).
Proof.
  intros Hrun. apply run_returns in Hrun as (-> & _).
  apply in_spec_records.
Qed.

Lemma record_iff_page_witness :
  fst (run world_flaky)
  = Ok [ {| port := 9222; window := 1; tab := 2;
            url := "https://b.test/"; title := "B" |};
         {| port := 9222; window := 2; tab := 2;
            url := "https://b.test/"; title := "B" |};
         {| port := 9224; window := 1; tab := 1;
            url := "https://c.test/"; title := "" |} ]
  /\ exists b pages page,
       connect_over_cdp world_flaky 9222 = Ok b
       /\ nth_error (contexts b) 1 = Some pages
       /\ nth_error pages 1 = Some page
       /\ page_url page = "https://b.test/"
       /\ page_title page = Ok "B".
Proof.
  assert (Hrun : fst (run world_flaky) = Ok (spec_records world_flaky))
    by reflexivity.
  split; [exact Hrun |].
  pose proof (proj1 (record_iff_page world_flaky (spec_records world_flaky)
                     {| port := 9222; window := 2; tab := 2;
                        url := "https://b.test/"; title := "B" |} Hrun)) as H.
  assert (Hin : In {| port := 9222; window := 2; tab := 2;
                      url := "https://b.test/"; title := "B" |}
                   (spec_records world_flaky))
    by (right; left; reflexivity).
  specialize (H Hin).
  destruct H as (b & ci & pi & pages & page & _ & Hb & Hw & Hci & Ht
                 & Hpi & Hu & Htitle & _).
  cbn [window tab] in Hw, Ht.
  assert (ci = 1) as -> by (clear - Hw; lia).
  assert (pi = 1) as -> by (clear - Ht; lia).
  exists b, pages, page. repeat split; assumption.
Defined.

End ScannerRecords.

Section ScannerKeys.
Import Scanner.











Lemma NoDup_ports_to_check : NoDup ports_to_check.
Proof.
  unfold ports_to_check.
  repeat (constructor; [simpl; intuition discriminate |]). constructor.
Qed.



End ScannerKeys.

(** * More about the orchestrator *)

Section TelemetryFacts.
Import Orchestrator Telemetry.

(** The whole analysis of a non-empty list, in closed form. *)
Lemma run_closed_form w tabs ct :
  tabs <> [] ->
  run w tabs ct
  = let tk := task tabs ct in
    match agent_run w tk with
    | Raise e => (Raise e, final_state w tk (calls_up_to_agent w tk))
    | Ok a =>
        (Ok (Some (clean_analysis a)),
         final_state w tk
           (calls_up_to_agent w tk ++ log_events w tk (clean_analysis a)))
    end.
Proof.
  intros Htabs. destruct tabs as [| t ts]; [contradiction |].
  unfold run, analyze_urls. cbn [no_tabs]. cbv zeta.
  generalize (task (t :: ts) ct). intros tk.
  unfold final_state, calls_up_to_agent, log_events, trace_opened,
    session_started, init_events, span_args, project_name, log_stream.
  unfold init_galileo, open_trace, log_to_galileo, telemetry_on,
    read_start_time, try_except, bind, call, get, ret, set_logger,
    set_session_started, set_start_time, modify, init.
  destruct (GALILEO_AVAILABLE w); cbn.
  2: { destruct (agent_run w tk); reflexivity. }
  destruct (galileo_init w _ _) as [[] | ?]; cbn.
  2: { destruct (agent_run w tk); reflexivity. }
  destruct (get_logger_instance w) as [[] | ?]; cbn.
  2: { destruct (agent_run w tk); reflexivity. }
  destruct (start_session w) as [[] | ?]; cbn.
  2: { destruct (agent_run w tk); reflexivity. }
  destruct (start_trace w _ tk) as [[] | ?]; cbn.
  2: { destruct (agent_run w tk); reflexivity. }
  destruct (agent_run w tk) as [a | ?]; cbn; [| reflexivity].
  destruct (add_llm_span w _) as [[] | ?]; cbn; [| reflexivity].
  destruct (conclude w _) as [[] | ?]; cbn; [| reflexivity].
  destruct (flush w) as [[] | ?]; cbn; [| reflexivity].
  destruct (config_get w) as [[] | ?]; reflexivity.
Qed.

End TelemetryFacts.

Section ScannerCalls.
Import Scanner.

(** X3.  The ports a scan lists as connected are the candidate ports whose
    connection succeeded, each once and in candidate order, and every record
    returned comes from one of them. *)
Theorem records_come_from_connected_ports w recs :
  fst (run w) = Ok recs ->
  connected_ports (snd (run w)) = filter (answers w) ports_to_check
  /\ NoDup (connected_ports (snd (run w)))
  /\ (forall p, In p (connected_ports (snd (run w)))
                <-> In p ports_to_check
                    /\ exists b, connect_over_cdp w p = Ok b)
  /\ (forall r, In r recs -> In (port r) (connected_ports (snd (run w)))).
Proof.
  intros Hrun. apply run_returns in Hrun as (-> & -> & _).
  assert (Hans : forall p, answers w p = true
                           <-> exists b, connect_over_cdp w p = Ok b).
  { intros p. unfold answers.
    destruct (connect_over_cdp w p) as [b | e]; split; try easy.
    - intros _. now exists b.
    - intros [b Hb]. discriminate Hb. }
  unfold reachable. repeat split.
  - apply NoDup_filter, NoDup_ports_to_check.
  - now apply filter_In in H.
  - apply Hans. now apply filter_In in H.
  - intros [Hp Hb]. apply filter_In. split; [exact Hp | now apply Hans].
  - intros r Hr. apply in_spec_records in Hr
      as (b & _ & _ & _ & _ & Hp & Hb & _).
    apply filter_In. split; [exact Hp |]. apply Hans. now exists b.
Qed.

Lemma records_come_from_connected_ports_witness :
  fst (run world_flaky) = Ok (spec_records world_flaky)
  /\ connected_ports (snd (run world_flaky)) = [9222; 9224]%Z
  /\ forall r, In r (spec_records world_flaky) ->
               In (port r) (connected_ports (snd (run world_flaky))).
Proof.
  assert (Hrun : fst (run world_flaky) = Ok (spec_records world_flaky))
    by reflexivity.
  split; [exact Hrun |].
  destruct (records_come_from_connected_ports
              world_flaky (spec_records world_flaky) Hrun)
    as (Hports & _ & _ & Hrecs).
  split; [exact Hports | exact Hrecs].
Defined.

Lemma quiet_filter evs : quiet evs -> filter is_connect evs = [].
Proof.
  induction 1 as [| e evs He _ IH]; [reflexivity |].
  simpl. now rewrite He.
Qed.

Lemma filter_connect_ports w l :
  filter is_connect (flat_map (port_events w) l) = map EvConnect l.
Proof.
  induction l as [| p l IH]; [reflexivity |].
  simpl. rewrite filter_app, IH, quiet_filter by apply after_connect_quiet.
  reflexivity.
Qed.

Lemma port_events_kinds w l e :
  In e (flat_map (port_events w) l) -> e <> EvStart /\ e <> EvStop.
Proof.
  intros H. apply in_flat_map in H as (p & _ & H).
  unfold port_events, after_connect in H.
  destruct H as [<- | H]; [split; discriminate |].
  destruct (connect_over_cdp w p) as [b | ?]; [| destruct H].
  apply in_app_or in H as [H | [<- | []]]; [| split; discriminate].
  unfold browser_events, context_events in H.
  apply in_flat_map in H as ([ci pages] & _ & H).
  apply in_map_iff in H as ([pi page] & <- & _). split; discriminate.
Qed.

(** X4.  Once the driver has started, a scan tries all five candidate ports,
    in order and each once, whatever the earlier ones answered, and stopping
    the driver is its last call, made once.  When the driver does not start,
    no other call is made. *)
Theorem every_candidate_is_tried w :
  (playwright_start w = Ok tt ->
   filter is_connect (trace (snd (run w)))
   = [EvConnect 9222; EvConnect 9223; EvConnect 9224; EvConnect 9225;
      EvConnect 9226]%Z
   /\ exists body,
        trace (snd (run w)) = EvStart :: body ++ [EvStop]
        /\ ~ In EvStart body /\ ~ In EvStop body)
  /\ (forall e, playwright_start w = Raise e ->
                trace (snd (run w)) = [EvStart]).
Proof.
  rewrite run_eq. split.
  - intros ->. cbn [snd trace]. split.
    + cbn [filter is_connect]. rewrite filter_app, filter_connect_ports.
      reflexivity.
    + exists (flat_map (port_events w) ports_to_check).
      split; [reflexivity |].
      split; intros H; apply port_events_kinds in H; now destruct H.
  - intros e ->. reflexivity.
Qed.

Lemma every_candidate_is_tried_witness :
  playwright_start world_flaky = Ok tt
  /\ filter is_connect (trace (snd (run world_flaky)))
     = [EvConnect 9222; EvConnect 9223; EvConnect 9224; EvConnect 9225;
        EvConnect 9226]%Z
  /\ trace (snd (run world_no_driver)) = [EvStart].
Proof.
  split; [reflexivity |].
  destruct (every_candidate_is_tried world_flaky) as [Hok _].
  destruct (every_candidate_is_tried world_no_driver) as [_ Hfail].
  split.
  - exact (proj1 (Hok eq_refl)).
  - exact (Hfail _ eq_refl).
Defined.

End ScannerCalls.

Section TelemetryClaims.
Import Orchestrator Telemetry.

Lemma calls_of_run w tabs ct :
  tabs <> [] ->
  trace (snd (run w tabs ct))
  = calls_up_to_agent w (task tabs ct)
    ++ match agent_run w (task tabs ct) with
       | Ok a => log_events w (task tabs ct) (clean_analysis a)
       | Raise _ => []
       end.
Proof.
  intros Htabs. rewrite run_closed_form by exact Htabs. cbv zeta.
  destruct (agent_run w (task tabs ct)); cbn [snd final_state trace];
    [reflexivity | now rewrite app_nil_r].
Qed.

Lemma init_events_early w :
  Forall (fun e => is_start_trace e = false /\ is_logging e = false)
         (init_events w).
Proof.
  unfold init_events.
  destruct (GALILEO_AVAILABLE w); [| constructor].
  destruct (is_ok (galileo_init w _ _)); [| now repeat constructor].
  destruct (is_ok (get_logger_instance w)); now repeat constructor.
Qed.

(** X5.  When the Galileo SDK is absent, or one of its three initialisation
    calls fails, the analysis opens no trace and logs nothing: its only
    Galileo calls are the initialisation calls up to the failure. *)
Theorem no_session_no_trace w tabs ct :
  tabs <> [] ->
  GALILEO_AVAILABLE w = false
  \/ (exists e, galileo_init w (project_name w) (log_stream w) = Raise e)
  \/ (exists e, get_logger_instance w = Raise e)
  \/ (exists e, start_session w = Raise e) ->
  Forall (fun e => is_start_trace e = false /\ is_logging e = false)
         (trace (snd (run w tabs ct))).
Proof.
  intros Htabs Hfail. rewrite calls_of_run by exact Htabs.
  assert (Hoff : session_started w = false).
  { unfold session_started.
    destruct Hfail as [-> | [[e ->] | [[e ->] | [e ->]]]]; cbn [is_ok];
      rewrite ?andb_false_r; reflexivity. }
  unfold calls_up_to_agent, log_events, trace_opened. rewrite Hoff.
  cbn [andb app]. rewrite !Forall_app. repeat split.
  - apply init_events_early.
  - now repeat constructor.
  - destruct (agent_run w (task tabs ct)); constructor.
Qed.

Lemma no_session_no_trace_witness :
  Orchestrator.tabs3 <> []
  /\ (exists e,
        start_session
          (world_failing_session (Ok (Some "done"))) = Raise e)
  /\ trace (snd (run (world_failing_session (Ok (Some "done")))
                     Orchestrator.tabs3 "List topics"))
     = [EvInit "chrome-tab-analyzer" "tab-analysis"; EvGetLogger;
        EvStartSession; EvAgent (task Orchestrator.tabs3 "List topics")]
  /\ Forall (fun e => is_start_trace e = false /\ is_logging e = false)
            (trace (snd (run (world_failing_session (Ok (Some "done")))
                             Orchestrator.tabs3 "List topics"))).
Proof.
  assert (Htabs : Orchestrator.tabs3 <> []) by discriminate.
  assert (Hfail : exists e,
             start_session (world_failing_session (Ok (Some "done")))
             = Raise e) by (eexists; reflexivity).
  split; [exact Htabs |]. split; [exact Hfail |]. split; [reflexivity |].
  apply (no_session_no_trace (world_failing_session (Ok (Some "done")))
                             Orchestrator.tabs3 "List topics" Htabs).
  right; right; right. exact Hfail.
Defined.

(** X6.  When opening the trace fails, the analysis still runs the agent and
    returns its text, but makes no span, conclude or flush call: line 164 is
    skipped, [start_time_ns] stays unbound and line 181 fails inside its
    [try]. *)
Theorem failed_trace_logs_nothing w tabs ct e :
  tabs <> [] ->
  start_trace w "Browser Tab Analysis" (task tabs ct) = Raise e ->
  Forall (fun ev => is_logging ev = false) (trace (snd (run w tabs ct)))
  /\ start_time_ns (snd (run w tabs ct)) = None
  /\ forall a, agent_run w (task tabs ct) = Ok a ->
               fst (run w tabs ct) = Ok (Some (clean_analysis a)).
Proof.
  intros Htabs Hfail. split; [| split].
  - rewrite calls_of_run by exact Htabs.
    unfold calls_up_to_agent, log_events, trace_opened.
    rewrite Hfail. cbn [is_ok]. rewrite andb_false_r.
    rewrite !Forall_app. repeat split.
    + generalize (init_events_early w). apply Forall_impl. now intros ev [_ H].
    + destruct (session_started w); now repeat constructor.
    + now repeat constructor.
    + destruct (agent_run w (task tabs ct)); constructor.
  - rewrite run_closed_form by exact Htabs. cbv zeta.
    assert (Hclosed : trace_opened w (task tabs ct) = false)
      by (unfold trace_opened; rewrite Hfail; apply andb_false_r).
    destruct (agent_run w (task tabs ct));
      cbn [snd final_state start_time_ns]; now rewrite Hclosed.
  - intros a Ha. now rewrite run_result, Ha.
Qed.

Lemma failed_trace_logs_nothing_witness :
  Orchestrator.tabs3 <> []
  /\ start_trace (world_answering (Ok (Some "done"))) "Browser Tab Analysis"
                 (task Orchestrator.tabs3 "List topics")
     = Raise (Exception "trace rejected")
  /\ Forall (fun ev => is_logging ev = false)
            (trace (snd (run (world_answering (Ok (Some "done")))
                             Orchestrator.tabs3 "List topics")))
  /\ fst (run (world_answering (Ok (Some "done")))
              Orchestrator.tabs3 "List topics")
     = Ok (Some "done").
Proof.
  assert (Htabs : Orchestrator.tabs3 <> []) by discriminate.
  split; [exact Htabs |]. split; [reflexivity |].
  destruct (failed_trace_logs_nothing
              (world_answering (Ok (Some "done")))
              Orchestrator.tabs3 "List topics" _ Htabs eq_refl)
    as (Hcalls & _ & Hret).
  split; [exact Hcalls |].
  exact (Hret _ eq_refl).
Defined.

End TelemetryClaims.

Section TelemetryLogged.
Import Orchestrator Telemetry.

Lemma calls_up_to_agent_not_logging w tk e :
  In e (calls_up_to_agent w tk) -> is_logging e = false.
Proof.
  unfold calls_up_to_agent. intros H.
  apply in_app_or in H as [H | H].
  - pose proof (init_events_early w) as Hearly.
    rewrite Forall_forall in Hearly. now apply Hearly.
  - destruct (session_started w); simpl in H;
      repeat (destruct H as [<- | H]; [reflexivity |]); destruct H.
Qed.

Lemma in_log_events w tk out e :
  In e (log_events w tk out) ->
  e = EvSpan (span_args w tk out) \/ e = EvConclude out
  \/ e = EvFlush \/ e = EvConfig.
Proof.
  unfold log_events.
  destruct (trace_opened w tk); [| intros []].
  destruct (is_ok (add_llm_span w _)), (is_ok (conclude w out)),
    (is_ok (flush w)); simpl; intuition.
Qed.

Lemma logged_call w tabs ct e :
  tabs <> [] ->
  In e (trace (snd (run w tabs ct))) ->
  is_logging e = true ->
  exists a,
    agent_run w (task tabs ct) = Ok a
    /\ In e (log_events w (task tabs ct) (clean_analysis a)).
Proof.
  intros Htabs Hin Hlog. rewrite calls_of_run in Hin by exact Htabs.
  apply in_app_or in Hin as [Hin | Hin].
  - apply calls_up_to_agent_not_logging in Hin. congruence.
  - destruct (agent_run w (task tabs ct)) as [a | ?]; [| destruct Hin].
    now exists a.
Qed.

Lemma quarter_sum a b : a / 4 + b / 4 <= (a + b) / 4 <= a / 4 + b / 4 + 1.
Proof.
  pose proof (Nat.div_mod_eq a 4). pose proof (Nat.div_mod_eq b 4).
  pose proof (Nat.div_mod_eq (a + b) 4).
  pose proof (Nat.mod_upper_bound a 4). pose proof (Nat.mod_upper_bound b 4).
  pose proof (Nat.mod_upper_bound (a + b) 4). lia.
Qed.

(** X7.  What the analysis logs to Galileo is what it returns: a recorded
    span has the task text as input and the returned text as output, token
    counts that are the lengths divided by 4 (the total being the sum of the
    two counts or one more), and as duration the difference of the two clock
    readings; a concluded trace carries the returned text. *)
Theorem logged_text_is_returned_text w tabs ct :
  tabs <> [] ->
  (forall args, In (EvSpan args) (trace (snd (run w tabs ct))) ->
     span_input args = task tabs ct
     /\ fst (run w tabs ct) = Ok (Some (span_output args))
     /\ num_input_tokens args = String.length (task tabs ct) / 4
     /\ num_output_tokens args = String.length (span_output args) / 4
     /\ num_input_tokens args + num_output_tokens args <= total_tokens args
     /\ total_tokens args <= num_input_tokens args + num_output_tokens args + 1
     /\ duration_ns args = (clock_at_log w - clock_at_trace w)%Z)
  /\ (forall out, In (EvConclude out) (trace (snd (run w tabs ct))) ->
        fst (run w tabs ct) = Ok (Some out)).
Proof.
  intros Htabs. split.
  - intros args Hin.
    destruct (logged_call w tabs ct _ Htabs Hin eq_refl) as (a & Ha & Hlog).
    apply in_log_events in Hlog as [H | [H | [H | H]]]; try discriminate H.
    injection H as ->. rewrite run_result, Ha by exact Htabs.
    cbn [span_args span_input span_output num_input_tokens num_output_tokens
         total_tokens duration_ns].
    repeat split; apply quarter_sum.
  - intros out Hin.
    destruct (logged_call w tabs ct _ Htabs Hin eq_refl) as (a & Ha & Hlog).
    apply in_log_events in Hlog as [H | [H | [H | H]]]; try discriminate H.
    injection H as ->. now rewrite run_result, Ha.
Qed.

Lemma logged_text_is_returned_text_witness :
  Orchestrator.tabs3 <> []
  /\ In (EvConclude "Analysis failed")
        (trace (snd (run (world_logging (Ok None))
                         Orchestrator.tabs3 "List topics")))
  /\ fst (run (world_logging (Ok None)) Orchestrator.tabs3 "List topics")
     = Ok (Some "Analysis failed").
Proof.
  assert (Htabs : Orchestrator.tabs3 <> []) by discriminate.
  assert (Hin : In (EvConclude "Analysis failed")
                   (trace (snd (run (world_logging (Ok None))
                                    Orchestrator.tabs3 "List topics"))))
    by (do 6 right; left; reflexivity).
  split; [exact Htabs |]. split; [exact Hin |].
  destruct (logged_text_is_returned_text (world_logging (Ok None))
              Orchestrator.tabs3 "List topics" Htabs) as [_ Hconclude].
  exact (Hconclude _ Hin).
Defined.

Lemma unescape_fixed s :
  (occurs BSLASH_N s = false -> spec_unescape s = s)
  /\ forall c, occurs BSLASH_N (String c s) = false ->
               spec_unescape (String c s) = String c s.
Proof.
  induction s as [| d s [IH1 IH2]].
  - split; reflexivity.
  - split; [apply IH2 |]. intros c H.
    cbn [occurs] in H. apply orb_false_elim in H as [Hpre Hrest].
    unfold BSLASH_N in Hpre.
    rewrite !prefix_cons, prefix_empty, andb_true_r in Hpre.
    rewrite spec_unescape_step.
    rewrite (Ascii.eqb_sym c backslash), (Ascii.eqb_sym d "n"), Hpre.
    now rewrite IH2.
Qed.

Lemma unescape_length s :
  String.length (spec_unescape s) <= String.length s
  /\ forall c, String.length (spec_unescape (String c s))
               <= String.length (String c s).
Proof.
  induction s as [| d s [IH1 IH2]].
  - split; [apply Nat.le_refl | intros c; apply Nat.le_refl].
  - split; [apply IH2 |]. intros c. rewrite spec_unescape_step.
    destruct (Ascii.eqb c backslash && Ascii.eqb d "n").
    + cbn [LF append String.length]. lia.
    + specialize (IH2 d). cbn [String.length] in *. lia.
Qed.

(** X8.  Normalising is idempotent and never lengthens: the text the analysis
    returns is left as it is by a second normalisation, and it is no longer
    than the agent's non-empty answer. *)
Theorem clean_analysis_idempotent a :
  clean_analysis (Some (clean_analysis a)) = clean_analysis a
  /\ forall s, a = Some s -> s <> "" ->
               String.length (clean_analysis a) <= String.length s.
Proof.
  split.
  - destruct a as [[| c s] |]; try reflexivity.
    change (clean_analysis (Some (String c s)))
      with (replace BSLASH_N LF (String c s)).
    rewrite replace_unescape. unfold clean_analysis.
    rewrite unescape_truthy, replace_unescape by reflexivity.
    apply unescape_fixed, unescape_complete.
  - intros s -> Hs. unfold clean_analysis.
    destruct s as [| c s]; [contradiction |]. cbn [truthy].
    rewrite replace_unescape. apply unescape_length.
Qed.

Lemma clean_analysis_idempotent_witness :
  clean_analysis (Some ("a" ++ BSLASH_N ++ "b")%string) = ("a" ++ LF ++ "b")%string
  /\ clean_analysis (Some ("a" ++ LF ++ "b")%string) = ("a" ++ LF ++ "b")%string
  /\ 3 <= 4.
Proof.
  destruct (clean_analysis_idempotent (Some ("a" ++ BSLASH_N ++ "b")%string))
    as [Hidem Hlen].
  split; [reflexivity |]. split; [exact Hidem |].
  apply (Hlen _ eq_refl). discriminate.
Defined.

End TelemetryLogged.

(** * The script run *)

Section AppFacts.
Import App.

(** Whatever [analyze_urls] returns for a non-empty list passes the caller's
    test of line 342. *)
Lemma analysis_accepted ow tabs ct r :
  tabs <> [] ->
  fst (Orchestrator.run ow tabs ct) = Ok r ->
  Orchestrator.caller_accepts r = true.
Proof.
  intros Htabs. rewrite run_result by exact Htabs.
  destruct (Orchestrator.agent_run ow _) as [a |]; [| discriminate].
  intros H. injection H as <-. cbn [Orchestrator.caller_accepts].
  unfold Orchestrator.clean_analysis.
  destruct a as [s |]; [| reflexivity].
  destruct (truthy s) eqn:Hs; [| reflexivity].
  rewrite replace_unescape. now apply unescape_truthy.
Qed.

Lemma agent_call_text ow tabs ct tk :
  tabs <> [] ->
  In (Orchestrator.EvAgent tk)
     (Orchestrator.trace (snd (Orchestrator.run ow tabs ct))) ->
  tk = Orchestrator.task tabs ct.
Proof.
  intros Htabs Hin.
  destruct (run_with_tabs ow tabs ct Htabs)
    as (st & evs1 & evs2 & Hrun & Htr & H1 & H2 & _).
  rewrite Hrun in Hin. cbn [snd] in Hin. rewrite Htr in Hin.
  apply in_app_or in Hin as [Hin | [Hin | Hin]].
  - apply early_telemetry in H1. rewrite Forall_forall in H1.
    apply H1 in Hin. discriminate Hin.
  - now injection Hin.
  - rewrite Forall_forall in H2. apply H2 in Hin. discriminate Hin.
Qed.

Local Opaque Scanner.run Orchestrator.run Preview.preview strip.

Ltac app_unfold :=
  unfold run, main, fetch_button, analyze_button, show_analysis, run_fetch,
    run_analysis, show, set_session, start, bind, ret, get, modify.

Ltac run_agent :=
  match goal with
  | |- context [Orchestrator.run ?ow ?tabs ?ct] =>
      let Hacc := fresh "Hacc" in
      let Htxt := fresh "Htxt" in
      let Hrun := fresh "Hrun" in
      let fin := fresh "fin" in
      pose proof (fun r => analysis_accepted ow tabs ct r ltac:(discriminate))
        as Hacc;
      pose proof (fun tk => agent_call_text ow tabs ct tk ltac:(discriminate))
        as Htxt;
      destruct (Orchestrator.run ow tabs ct) as [[[? |] | ?] fin] eqn:Hrun;
      cbn [fst snd] in Hacc, Htxt;
      [ specialize (Hacc _ eq_refl); cbn in Hacc; cbn; rewrite Hacc
      | specialize (Hacc _ eq_refl); discriminate Hacc
      | ]; cbn
  end.

(** All the ways through one run of the script. *)
Ltac app_cases sw ow inp s :=
  app_unfold;
  destruct s as [[[| ? ?] |] ? [? |]];
  destruct (fetch_clicked inp) eqn:Hfetch;
  try (destruct (Scanner.run sw) as [[[| ? ?] | ?] ?] eqn:Hscan);
  cbn;
  try (destruct (analyze_clicked inp) eqn:Hanalyze); cbn;
  try (destruct (truthy (strip (custom_task inp))) eqn:Hblank); cbn;
  try run_agent.

Ltac wf_solve :=
  match goal with
  | Hwf : well_formed _ |- well_formed _ =>
      unfold well_formed in *; cbn in *;
      destruct Hwf as (Hwf1 & Hwf2 & Hwf3);
      repeat split; intros;
      repeat match goal with
        | H : Some _ = Some _ |- _ => injection H as H; subst
        | H : Some _ = None |- _ => discriminate H
        | H : None = Some _ |- _ => discriminate H
        end;
      try congruence; try discriminate;
      try (now apply Hwf2); try (now eapply Hwf1);
      try (now eapply Hwf3); try (now (eapply proj1, Hwf3))
  end.

Lemma run_keeps_well_formed sw ow inp s :
  well_formed s -> well_formed (session (snd (run sw ow inp s))).
Proof.
  intros Hwf. revert Hwf. app_cases sw ow inp s; intros Hwf; wf_solve.
Qed.

(** X9.  Every session the script can leave, starting from the empty one and
    whether its runs raise or not, is well formed: stored tabs are a non-empty
    list and come with a time stamp, and a stored analysis is a non-empty text
    and comes with stored tabs. *)
Theorem reachable_sessions_well_formed s :
  reachable s -> well_formed s.
Proof.
  induction 1 as [| sw ow inp s r st _ IH Hrun].
  - unfold well_formed, empty_session; cbn.
    repeat split; intros; discriminate.
  - replace st with (snd (run sw ow inp s)) by now rewrite Hrun.
    now apply run_keeps_well_formed.
Qed.

(** X10.  In a run the agent is called only if the analyze button was pressed,
    the instruction has a character that is not white space, and the session
    holds a non-empty list of tabs; the text it is given is the task text of
    those tabs and of the instruction as typed. *)
Theorem agent_called_only_with_tabs_and_task sw ow inp s tk :
  In (Orchestrator.EvAgent tk) (analysis_calls (snd (run sw ow inp s))) ->
  analyze_clicked inp = true
  /\ strip (custom_task inp) <> ""
  /\ exists tabs,
       ss_tabs (session (snd (run sw ow inp s))) = Some tabs
       /\ tabs <> []
       /\ tk = Orchestrator.task tabs (custom_task inp).
Proof.
  app_cases sw ow inp s; intros Hin; try (now destruct Hin).
  all: apply Htxt in Hin; subst tk.
  all: split; [reflexivity |].
  all: split; [intros Hs; rewrite Hs in Hblank; discriminate Hblank |].
  all: eexists; split; [reflexivity |]; split; [discriminate | reflexivity].
Qed.


Ltac app_done :=
  cbn in *; intros;
  repeat match goal with
    | H : _ /\ _ |- _ => destruct H
    | H : _ \/ _ |- _ => destruct H
    | H : False |- _ => destruct H
    | H : Ok _ = Ok _ |- _ => injection H as H
    | H : _ :: _ = _ :: _ |- _ => injection H as H
    | H : DownloadJson _ = DownloadJson _ |- _ => injection H as H
    | H : Some _ = Some _ |- _ => injection H as H
    end;
  subst; try discriminate; try congruence.

(** X11.  The message that the analysis failed (line 346) is never shown.
    When a run reports a complete analysis, the session holds the non-empty
    text that [analyze_urls] returned for the tabs of the session. *)
Theorem analysis_failed_is_never_shown sw ow inp s :
  ~ In AnalysisFailed (shown (snd (run sw ow inp s)))
  /\ (In AnalysisComplete (shown (snd (run sw ow inp s))) ->
      exists tabs a,
        ss_tabs (session (snd (run sw ow inp s))) = Some tabs
        /\ fst (Orchestrator.run ow tabs (custom_task inp)) = Ok (Some a)
        /\ ss_analysis (session (snd (run sw ow inp s))) = Some a
        /\ truthy a = true).
Proof.
  app_cases sw ow inp s.
  all: split; [intros Hin; app_done |].
  all: intros Hin; try (exfalso; app_done; fail).
  all: eexists; eexists; split; [reflexivity |]; rewrite Hrun; cbn;
    repeat split; assumption.
Qed.

(** X12.  A scan that finds no tab, or that raises, leaves the stored tabs and
    their time stamp as they were: the earlier list goes on being shown.  After
    a scan that raises the run raises too, with the session untouched, nothing
    shown and the agent not called. *)
Theorem empty_scan_keeps_inventory sw ow inp s :
  fetch_clicked inp = true ->
  (fst (Scanner.run sw) = Ok [] ->
   ss_tabs (session (snd (run sw ow inp s))) = ss_tabs s
   /\ ss_timestamp (session (snd (run sw ow inp s))) = ss_timestamp s
   /\ In NoTabsFound (shown (snd (run sw ow inp s)))
   /\ forall l, ss_tabs s = Some l ->
                In (TabsLoaded (List.length l))
                   (shown (snd (run sw ow inp s))))
  /\ (forall e, fst (Scanner.run sw) = Raise e ->
        fst (run sw ow inp s) = Raise e
        /\ session (snd (run sw ow inp s)) = s
        /\ shown (snd (run sw ow inp s)) = []
        /\ analysis_calls (snd (run sw ow inp s)) = []).
Proof.
  app_cases sw ow inp s; intros Hclicked; try discriminate Hclicked.
  all: split; [intros Hscan' | intros e' Hscan']; try discriminate Hscan'.
  all: try (injection Hscan' as <-).
  all: repeat split; intros;
    try match goal with
      | H : Some _ = Some _ |- _ => injection H as <-
      | H : None = Some _ |- _ => discriminate H
      end;
    cbn; auto 10.
Qed.

(** X13.  A scan that finds tabs replaces the stored tabs and their time
    stamp but keeps a stored analysis: when the analyze button is not pressed
    in that run, the analysis of the earlier tabs is shown and exported
    together with the new tabs and the new time stamp. *)
Theorem new_scan_keeps_old_analysis sw ow inp s recs :
  fetch_clicked inp = true ->
  analyze_clicked inp = false ->
  fst (Scanner.run sw) = Ok recs ->
  recs <> [] ->
  session (snd (run sw ow inp s))
  = {| ss_tabs := Some recs; ss_timestamp := Some (now inp);
       ss_analysis := ss_analysis s |}
  /\ forall a, ss_analysis s = Some a ->
       In (DownloadJson {| ex_timestamp := Some (now inp);
                           ex_total_tabs := List.length recs;
                           ex_task := custom_task inp;
                           ex_analysis := a;
                           ex_tabs := recs |})
          (shown (snd (run sw ow inp s))).
Proof.
  app_cases sw ow inp s; intros Hf Ha Hscan' Hrecs;
    try discriminate Hf; try discriminate Ha; try discriminate Hscan'.
  all: injection Hscan' as <-; try contradiction.
  all: split; [reflexivity |]; intros a' Ha'; try discriminate Ha'.
  all: injection Ha' as <-; cbn; auto 10.
Qed.

(** X14.  Whatever a run offers for download as JSON describes the session it
    leaves: the stored tabs with their number and time stamp, the stored
    analysis, and the instruction as it stands in the text area. *)
Theorem export_describes_session sw ow inp s d :
  In (DownloadJson d) (shown (snd (run sw ow inp s))) ->
  ss_tabs (session (snd (run sw ow inp s))) = Some (ex_tabs d)
  /\ ex_tabs d <> []
  /\ ex_total_tabs d = List.length (ex_tabs d)
  /\ ss_analysis (session (snd (run sw ow inp s))) = Some (ex_analysis d)
  /\ ex_timestamp d = ss_timestamp (session (snd (run sw ow inp s)))
  /\ ex_task d = custom_task inp.
Proof.
  app_cases sw ow inp s; intros Hin; app_done.
  all: cbn; repeat split; discriminate.
Qed.

End AppFacts.

Section AppRuns.
Import App.

Lemma reachable_sessions_well_formed_witness :
  reachable (session (snd (run Scanner.world_flaky
                               (Orchestrator.world_logging (Ok None))
                               press_fetch empty_session)))
  /\ ss_timestamp (session (snd (run Scanner.world_flaky
                                     (Orchestrator.world_logging (Ok None))
                                     press_fetch empty_session)))
     = Some "2025-01-01T12:00:00"
  /\ well_formed (session (snd (run Scanner.world_flaky
                                    (Orchestrator.world_logging (Ok None))
                                    press_fetch empty_session))).
Proof.
  assert (Hreach : reachable
            (session (snd (run Scanner.world_flaky
                               (Orchestrator.world_logging (Ok None))
                               press_fetch empty_session)))).
  { eapply reach_run; [apply reach_empty | apply surjective_pairing]. }
  split; [exact Hreach |]. split; [reflexivity |].
  exact (reachable_sessions_well_formed _ Hreach).
Defined.

Lemma agent_called_only_with_tabs_and_task_witness :
  In (Orchestrator.EvAgent (Orchestrator.task Orchestrator.tabs3 "List topics"))
     (analysis_calls (snd (run Scanner.world_all_unreachable
                               (Orchestrator.world_logging (Ok None))
                               press_analyze earlier_session)))
  /\ analyze_clicked press_analyze = true
  /\ strip (custom_task press_analyze) <> "".
Proof.
  assert (Hin : In (Orchestrator.EvAgent
                      (Orchestrator.task Orchestrator.tabs3 "List topics"))
                   (analysis_calls
                      (snd (run Scanner.world_all_unreachable
                                (Orchestrator.world_logging (Ok None))
                                press_analyze earlier_session))))
    by (vm_compute; do 4 right; left; reflexivity).
  split; [exact Hin |].
  destruct (agent_called_only_with_tabs_and_task _ _ _ _ _ Hin)
    as (Hclick & Htask & _).
  split; [exact Hclick | exact Htask].
Defined.

Lemma analysis_failed_is_never_shown_witness :
  In AnalysisComplete
     (shown (snd (run Scanner.world_all_unreachable
                      (Orchestrator.world_logging (Ok None))
                      press_analyze earlier_session)))
  /\ exists tabs a,
       ss_tabs (session (snd (run Scanner.world_all_unreachable
                                  (Orchestrator.world_logging (Ok None))
                                  press_analyze earlier_session)))
       = Some tabs
       /\ fst (Orchestrator.run (Orchestrator.world_logging (Ok None)) tabs
                                (custom_task press_analyze))
          = Ok (Some a)
       /\ ss_analysis (session (snd (run Scanner.world_all_unreachable
                                         (Orchestrator.world_logging (Ok None))
                                         press_analyze earlier_session)))
          = Some a
       /\ truthy a = true.
Proof.
  assert (Hin : In AnalysisComplete
                   (shown (snd (run Scanner.world_all_unreachable
                                    (Orchestrator.world_logging (Ok None))
                                    press_analyze earlier_session))))
    by (vm_compute; do 2 right; left; reflexivity).
  split; [exact Hin |].
  exact (proj2 (analysis_failed_is_never_shown
                  Scanner.world_all_unreachable
                  (Orchestrator.world_logging (Ok None))
                  press_analyze earlier_session) Hin).
Defined.

Lemma empty_scan_keeps_inventory_witness :
  fetch_clicked press_fetch = true
  /\ fst (Scanner.run Scanner.world_all_unreachable) = Ok []
  /\ ss_tabs (session (snd (run Scanner.world_all_unreachable
                                (Orchestrator.world_logging (Ok None))
                                press_fetch earlier_session)))
     = Some Orchestrator.tabs3
  /\ fst (run Scanner.world_no_driver (Orchestrator.world_logging (Ok None))
              press_fetch earlier_session)
     = Raise (Exception "Executable doesn't exist").
Proof.
  split; [reflexivity |]. split; [reflexivity |].
  destruct (empty_scan_keeps_inventory
              Scanner.world_all_unreachable
              (Orchestrator.world_logging (Ok None))
              press_fetch earlier_session eq_refl) as [Hempty _].
  destruct (empty_scan_keeps_inventory
              Scanner.world_no_driver
              (Orchestrator.world_logging (Ok None))
              press_fetch earlier_session eq_refl) as [_ Hraise].
  split.
  - exact (proj1 (Hempty eq_refl)).
  - exact (proj1 (Hraise (Exception "Executable doesn't exist") eq_refl)).
Defined.

Lemma new_scan_keeps_old_analysis_witness :
  fetch_clicked press_fetch = true
  /\ analyze_clicked press_fetch = false
  /\ fst (Scanner.run Scanner.world_one_browser)
     = Ok (Scanner.spec_records Scanner.world_one_browser)
  /\ Scanner.spec_records Scanner.world_one_browser <> []
  /\ session (snd (run Scanner.world_one_browser
                       (Orchestrator.world_logging (Ok None))
                       press_fetch earlier_session))
     = {| ss_tabs := Some [{| port := 9223; window := 1; tab := 1;
                              url := "https://x.test/a"; title := "Docs" |}];
          ss_timestamp := Some "2025-01-01T12:00:00";
          ss_analysis := Some "Two topics: docs and news." |}.
Proof.
  assert (Hscan : fst (Scanner.run Scanner.world_one_browser)
                  = Ok (Scanner.spec_records Scanner.world_one_browser))
    by reflexivity.
  assert (Hrecs : Scanner.spec_records Scanner.world_one_browser <> [])
    by discriminate.
  split; [reflexivity |]. split; [reflexivity |].
  split; [exact Hscan |]. split; [exact Hrecs |].
  exact (proj1 (new_scan_keeps_old_analysis
                  Scanner.world_one_browser
                  (Orchestrator.world_logging (Ok None))
                  press_fetch earlier_session
                  (Scanner.spec_records Scanner.world_one_browser)
                  eq_refl eq_refl Hscan Hrecs)).
Defined.

Lemma export_describes_session_witness :
  exists d,
    In (DownloadJson d)
       (shown (snd (run Scanner.world_one_browser
                        (Orchestrator.world_logging (Ok None))
                        press_fetch earlier_session)))
    /\ ex_total_tabs d = 1
    /\ ex_analysis d = "Two topics: docs and news."
    /\ ex_timestamp d = Some "2025-01-01T12:00:00".
Proof.
  exists {| ex_timestamp := Some "2025-01-01T12:00:00";
            ex_total_tabs := 1;
            ex_task := "List topics";
            ex_analysis := "Two topics: docs and news.";
            ex_tabs := Scanner.spec_records Scanner.world_one_browser |}.
  assert (Hin : In (DownloadJson
                      {| ex_timestamp := Some "2025-01-01T12:00:00";
                         ex_total_tabs := 1;
                         ex_task := "List topics";
                         ex_analysis := "Two topics: docs and news.";
                         ex_tabs :=
                           Scanner.spec_records Scanner.world_one_browser |})
                   (shown (snd (run Scanner.world_one_browser
                                    (Orchestrator.world_logging (Ok None))
                                    press_fetch earlier_session))))
    by (vm_compute; do 5 right; left; reflexivity).
  split; [exact Hin |].
  destruct (export_describes_session _ _ _ _ _ Hin)
    as (_ & _ & Hn & _ & Hts & _).
  repeat split.
Defined.

End AppRuns.

(** * The API key at start-up *)

Section EnvFacts.
Import Env.

Lemma split_once_no_sep sep s :
  ~ has_char sep s -> split_once sep s = [s].
Proof.
  unfold has_char. induction s as [| c s IH]; simpl; intros H; [reflexivity |].
  destruct (Ascii.eqb_spec c sep) as [-> | Hc]; [elim H; now left |].
  rewrite IH; [reflexivity |]. intros Hin. apply H. now right.
Qed.

Lemma split_once_at_sep sep a b :
  ~ has_char sep a ->
  split_once sep (a ++ String sep b) = [a; b].
Proof.
  unfold has_char. induction a as [| c a IH]; simpl; intros H.
  - now rewrite Ascii.eqb_refl.
  - destruct (Ascii.eqb_spec c sep) as [-> | Hc]; [elim H; now left |].
    rewrite IH; [reflexivity |]. intros Hin. apply H. now right.
Qed.

Lemma split_once_has_sep sep s :
  has_char sep s -> exists a b, split_once sep s = [a; b].
Proof.
  unfold has_char. induction s as [| c s IH]; simpl; intros H; [destruct H |].
  destruct (Ascii.eqb_spec c sep) as [-> | Hc]; [now eexists; eexists |].
  destruct H as [-> | H]; [contradiction |].
  destruct (IH H) as (a & b & ->). now eexists; eexists.
Qed.

Lemma has_char_app c a b :
  has_char c (a ++ b) <-> has_char c a \/ has_char c b.
Proof.
  unfold has_char. induction a as [| x a IH]; simpl.
  - tauto.
  - rewrite IH. tauto.
Qed.

Lemma key_has_no_equals : ~ has_char "="%char KEY.
Proof. unfold has_char. cbn. intuition discriminate. Qed.

Lemma rstrip_idempotent s : rstrip (rstrip s) = rstrip s.
Proof.
  induction s as [| c s IH]; [reflexivity |].
  cbn [rstrip]. destruct (rstrip s) as [| d kept] eqn:Hr.
  - destruct (isspace c) eqn:Hc; [reflexivity |].
    cbn [rstrip]. now rewrite Hc.
  - cbn [rstrip] in *. now rewrite IH.
Qed.

Lemma lstrip_head s :
  lstrip s = "" \/ exists c r, lstrip s = String c r /\ isspace c = false.
Proof.
  induction s as [| c s IH]; [now left |].
  cbn [lstrip]. destruct (isspace c) eqn:Hc; [exact IH |].
  right. now exists c, s.
Qed.

Lemma rstrip_head c r :
  isspace c = false -> exists r', rstrip (String c r) = String c r'.
Proof.
  intros Hc. cbn [rstrip]. destruct (rstrip r) as [| d kept].
  - rewrite Hc. now eexists.
  - now eexists.
Qed.

Lemma strip_idempotent s : strip (strip s) = strip s.
Proof.
  unfold strip.
  destruct (lstrip_head s) as [-> | (c & r & -> & Hc)]; [reflexivity |].
  destruct (rstrip_head c r Hc) as [r' Hr]. rewrite Hr.
  cbn [lstrip]. rewrite Hc, <- Hr. apply rstrip_idempotent.
Qed.

Lemma scan_lines_skip before rest :
  Forall (fun l => prefix KEY l = false) before ->
  scan_lines (before ++ rest) = scan_lines rest.
Proof.
  induction 1 as [| l before Hl _ IH]; [reflexivity |].
  cbn [app scan_lines]. now rewrite Hl.
Qed.

(** X15.  With the variable unset, the first line of [.env] that starts with
    the name of the variable gives the key, whatever lines follow: the key is
    what stands after the first [=] of that line, without the white space
    around it.  Whatever stands between the name and that [=] is ignored, so
    a line for a variable with a longer name is taken as well. *)
Theorem first_matching_line_gives_key api_key before between value after :
  api_key = None \/ api_key = Some "" ->
  Forall (fun l => prefix KEY l = false) before ->
  ~ has_char "="%char between ->
  load_api_key api_key
    (Some (before ++ (KEY ++ between ++ String "="%char value)%string :: after))
  = Ok (Some (strip value))
  /\ strip (strip value) = strip value.
Proof.
  intros Hunset Hbefore Hbetween. split; [| apply strip_idempotent].
  unfold load_api_key.
  assert (Hsplit : split_once "="%char
                     (KEY ++ between ++ String "="%char value)%string
                   = [(KEY ++ between)%string; value]).
  { rewrite <- append_assoc. apply split_once_at_sep.
    rewrite has_char_app. intros [H | H]; [| contradiction].
    now apply key_has_no_equals. }
  destruct Hunset as [-> | ->]; cbn [truthy negb];
    rewrite scan_lines_skip by exact Hbefore;
    cbn [scan_lines]; rewrite prefix_app;
    unfold key_of_line; rewrite Hsplit; reflexivity.
Qed.


Lemma first_matching_line_gives_key_witness :
  load_api_key None
    (Some [ ("# keys" ++ LF)%string;
            ("BROWSER_USE_API_KEY_2= sk-123 " ++ LF)%string;
            ("BROWSER_USE_API_KEY" ++ LF)%string ])
  = Ok (Some "sk-123").
Proof.
  refine (proj1 (first_matching_line_gives_key
                   None [("# keys" ++ LF)%string] "_2"
                   (" sk-123 " ++ LF)%string
                   [("BROWSER_USE_API_KEY" ++ LF)%string] _ _ _)).
  - now left.
  - repeat constructor.
  - unfold has_char. cbn. intuition discriminate.
Defined.

Lemma key_of_line_raises line :
  (exists e, key_of_line line = Raise e) <-> ~ has_char "="%char line.
Proof.
  unfold key_of_line. split.
  - intros [e He] Hin.
    destruct (split_once_has_sep _ _ Hin) as (a & b & Hs).
    rewrite Hs in He. discriminate He.
  - intros Hno. rewrite split_once_no_sep by exact Hno. now eexists.
Qed.

Lemma has_char_dec c s : {has_char c s} + {~ has_char c s}.
Proof. apply in_dec, ascii_dec. Qed.

Lemma scan_lines_raises lines :
  (exists e, scan_lines lines = Raise e)
  <-> exists before line after,
        lines = before ++ line :: after
        /\ Forall (fun l => prefix KEY l = false) before
        /\ prefix KEY line = true
        /\ ~ has_char "="%char line.
Proof.
  induction lines as [| l lines IH]; cbn [scan_lines].
  - split; [intros [e He]; discriminate He |].
    intros (before & line & after & H & _). now destruct before.
  - destruct (prefix KEY l) eqn:Hl.
    + split.
      * intros [e He].
        exists [], l, lines. repeat split; [constructor | exact Hl |].
        apply key_of_line_raises.
        destruct (key_of_line l) as [k | e']; [discriminate He | now exists e'].
      * intros (before & line & after & Heq & Hbefore & _ & Hno).
        destruct before as [| b before].
        -- injection Heq as <- _.
           apply key_of_line_raises in Hno as [e ->]. now exists e.
        -- injection Heq as <- _. inversion Hbefore; congruence.
    + rewrite IH. split.
      * intros (before & line & after & -> & Hbefore & Hline & Hno).
        exists (l :: before), line, after. repeat split; try assumption.
        now constructor.
      * intros (before & line & after & Heq & Hbefore & Hline & Hno).
        destruct before as [| b before].
        -- injection Heq as <- _. congruence.
        -- injection Heq as <- ->. inversion Hbefore; subst.
           now exists before, line, after.
Qed.

(** X16.  Start-up raises [IndexError] exactly when the variable is unset or
    empty, [.env] exists, and its first line that starts with the name of the
    variable has no [=]; lines for the variable further down do not help. *)
Theorem start_up_raises_iff api_key dotenv_file :
  (exists e, load_api_key api_key dotenv_file = Raise e)
  <-> (api_key = None \/ api_key = Some "")
      /\ exists before line after,
           dotenv_file = Some (before ++ line :: after)
           /\ Forall (fun l => prefix KEY l = false) before
           /\ prefix KEY line = true
           /\ ~ has_char "="%char line.
Proof.
  unfold load_api_key. split.
  - intros [e He].
    assert (Hunset : api_key = None \/ api_key = Some "").
    { destruct api_key as [[| c v] |]; [now right | discriminate He | now left]. }
    split; [exact Hunset |].
    destruct Hunset as [-> | ->]; cbn [truthy negb] in He;
      (destruct dotenv_file as [lines |]; [| discriminate He]);
      (destruct (proj1 (scan_lines_raises lines))
         as (before & line & after & -> & H);
       [ destruct (scan_lines lines) as [[k |] | e'];
         [discriminate He | discriminate He | now exists e']
       | now exists before, line, after ]).
  - intros (Hunset & before & line & after & -> & H).
    destruct (proj2 (scan_lines_raises (before ++ line :: after))) as [e He];
      [now exists before, line, after |].
    exists e. destruct Hunset as [-> | ->]; cbn [truthy negb]; now rewrite He.
Qed.

Lemma start_up_raises_iff_witness :
  exists e,
    load_api_key (Some "")
      (Some [ ("# keys" ++ LF)%string;
              ("BROWSER_USE_API_KEY" ++ LF)%string;
              ("BROWSER_USE_API_KEY=sk-123" ++ LF)%string ])
    = Raise e.
Proof.
  apply (proj2 (start_up_raises_iff _ _)).
  split; [now right |].
  exists [("# keys" ++ LF)%string], ("BROWSER_USE_API_KEY" ++ LF)%string,
    [("BROWSER_USE_API_KEY=sk-123" ++ LF)%string].
  split; [reflexivity |]. split; [repeat constructor |].
  split; [reflexivity |].
  unfold has_char. cbn. intuition discriminate.
Defined.

End EnvFacts.

(** * The tab preview *)

Section PreviewFacts.
Import Preview.

Lemma dict_get_append k k' t d :
  dict_get k (dict_append k' t d)
  = if (k =? k')%Z then dict_get k d ++ [t] else dict_get k d.
Proof.
  induction d as [| [k0 ts] d IH]; cbn [dict_append dict_get].
  - now destruct (k =? k')%Z.
  - destruct (Z.eqb_spec k' k0) as [-> | Hk']; cbn [dict_get].
    + now destruct (k =? k0)%Z.
    + rewrite IH. destruct (Z.eqb_spec k k0) as [-> | Hk]; [| reflexivity].
      destruct (Z.eqb_spec k0 k'); [congruence | reflexivity].
Qed.

Lemma dict_get_fold tabs : forall d k,
  dict_get k (fold_left (fun d t => dict_append (port t) t d) tabs d)
  = dict_get k d ++ filter (from_port k) tabs.
Proof.
  induction tabs as [| t tabs IH]; intros d k; cbn [fold_left filter].
  - now rewrite app_nil_r.
  - rewrite IH, dict_get_append. unfold from_port at 2.
    rewrite (Z.eqb_sym (port t) k).
    destruct (k =? port t)%Z; [now rewrite <- app_assoc | reflexivity].
Qed.

(** The group of a port holds the tabs of that port, in their order. *)
Lemma group_is_filter tabs k :
  dict_get k (tabs_by_port tabs) = filter (from_port k) tabs.
Proof. unfold tabs_by_port. now rewrite dict_get_fold. Qed.

Lemma dict_keys_append k t d :
  dict_keys (dict_append k t d)
  = if existsb (Z.eqb k) (dict_keys d) then dict_keys d
    else dict_keys d ++ [k].
Proof.
  unfold dict_keys.
  induction d as [| [k0 ts] d IH]; cbn [dict_append map existsb fst];
    [reflexivity |].
  destruct (k =? k0)%Z; cbn [map fst orb]; [reflexivity |].
  rewrite IH. now destruct (existsb (Z.eqb k) (map fst d)).
Qed.

Lemma existsb_eqb k l : existsb (Z.eqb k) l = true <-> In k l.
Proof.
  rewrite existsb_exists. split.
  - intros (x & Hx & Hk). apply Z.eqb_eq in Hk. now subst.
  - intros H. exists k. split; [exact H | apply Z.eqb_refl].
Qed.

Lemma dict_keys_fold tabs : forall d,
  NoDup (dict_keys d) ->
  NoDup (dict_keys (fold_left (fun d t => dict_append (port t) t d) tabs d))
  /\ forall k,
       In k (dict_keys (fold_left (fun d t => dict_append (port t) t d) tabs d))
       <-> In k (dict_keys d) \/ exists t, In t tabs /\ port t = k.
Proof.
  induction tabs as [| t tabs IH]; intros d Hd; cbn [fold_left].
  - split; [exact Hd |]. intros k. split; [now left |].
    intros [H | (t & [] & _)]. exact H.
  - assert (Hstep : NoDup (dict_keys (dict_append (port t) t d))
            /\ forall k, In k (dict_keys (dict_append (port t) t d))
                         <-> In k (dict_keys d) \/ port t = k).
    { rewrite dict_keys_append.
      destruct (existsb (Z.eqb (port t)) (dict_keys d)) eqn:Hex.
      - apply existsb_eqb in Hex. split; [exact Hd |].
        intros k. split; [now left | intros [H | <-]; assumption].
      - split.
        + apply NoDup_app; [exact Hd | repeat constructor; intros [] |].
          intros a Ha [<- | []]. apply existsb_eqb in Ha. congruence.
        + intros k. rewrite in_app_iff. cbn [In]. tauto. }
    destruct Hstep as [Hnd Hin].
    destruct (IH _ Hnd) as [Hnd' Hin']. split; [exact Hnd' |].
    intros k. rewrite Hin', Hin. split.
    + intros [[H | <-] | (t' & Ht' & <-)].
      * now left.
      * right. exists t. split; [now left | reflexivity].
      * right. exists t'. split; [now right | reflexivity].
    + intros [H | (t' & [<- | Ht'] & <-)].
      * now left; left.
      * now left; right.
      * right. now exists t'.
Qed.

Lemma keys_of_tabs tabs :
  NoDup (dict_keys (tabs_by_port tabs))
  /\ forall k, In k (dict_keys (tabs_by_port tabs))
               <-> exists t, In t tabs /\ port t = k.
Proof.
  destruct (dict_keys_fold tabs [] (NoDup_nil _)) as [Hnd Hin].
  split; [exact Hnd |]. intros k. unfold tabs_by_port. rewrite Hin.
  cbn. tauto.
Qed.

Lemma insert_sorted_perm k l : Permutation (insert_sorted k l) (k :: l).
Proof.
  induction l as [| x l IH]; cbn [insert_sorted]; [reflexivity |].
  destruct (k <=? x)%Z; [reflexivity |].
  rewrite IH. apply perm_swap.
Qed.

Lemma sorted_perm l : Permutation (sorted l) l.
Proof.
  induction l as [| x l IH]; cbn; [constructor |].
  rewrite insert_sorted_perm. now constructor.
Qed.




Lemma flat_map_ext_in {A B} (f g : A -> list B) (l : list A) :
  (forall x, In x l -> f x = g x) -> flat_map f l = flat_map g l.
Proof.
  induction l as [| x l IH]; intros H; cbn; [reflexivity |].
  rewrite (H x) by now left. rewrite IH; [reflexivity |].
  intros y Hy. apply H. now right.
Qed.

Lemma shown_tabs_eq tabs :
  shown_tabs tabs
  = flat_map (fun p => filter (from_port p) tabs)
             (sorted (dict_keys (tabs_by_port tabs))).
Proof.
  unfold shown_tabs. cbv zeta. apply flat_map_ext_in.
  intros p _. apply group_is_filter.
Qed.

Lemma groups_permutation tabs : forall ks,
  NoDup ks ->
  (forall t, In t tabs -> In (port t) ks) ->
  Permutation (flat_map (fun p => filter (from_port p) tabs) ks) tabs.
Proof.
  induction tabs as [| t tabs IH]; intros ks Hnd Hin.
  - replace (flat_map (fun p => filter (from_port p) []) ks)
      with (@nil TabRecord) by (clear; induction ks; cbn; auto).
    apply perm_nil.
  - destruct (in_split (port t) ks) as (ks1 & ks2 & ->);
      [apply Hin; now left |].
    apply NoDup_remove_2 in Hnd as Hnot.
    assert (Hhere : filter (from_port (port t)) (t :: tabs)
                    = t :: filter (from_port (port t)) tabs)
      by (cbn [filter]; unfold from_port; now rewrite Z.eqb_refl).
    assert (Hother : forall p, In p (ks1 ++ ks2) ->
                       filter (from_port p) (t :: tabs)
                       = filter (from_port p) tabs).
    { intros p Hp. cbn [filter].
      replace (from_port p t) with false; [reflexivity |].
      symmetry. apply Z.eqb_neq. intros Heq. apply Hnot. now rewrite Heq. }
    rewrite flat_map_app. cbn [flat_map]. rewrite Hhere.
    rewrite (flat_map_ext_in _ (fun p => filter (from_port p) tabs) ks1)
      by (intros p Hp; apply Hother, in_or_app; now left).
    rewrite (flat_map_ext_in _ (fun p => filter (from_port p) tabs) ks2)
      by (intros p Hp; apply Hother, in_or_app; now right).
    rewrite <- app_comm_cons. rewrite <- Permutation_middle.
    constructor.
    specialize (IH (ks1 ++ port t :: ks2) Hnd).
    rewrite flat_map_app in IH. cbn [flat_map] in IH.
    apply IH. intros t' Ht'. apply Hin. now right.
Qed.

Lemma groups_permutation_shown tabs : Permutation (shown_tabs tabs) tabs.
Proof.
  destruct (keys_of_tabs tabs) as [Hnd Hin].
  rewrite shown_tabs_eq. apply groups_permutation.
  - apply (Permutation_NoDup (Permutation_sym (sorted_perm _)) Hnd).
  - intros t Ht. apply (Permutation_in _ (Permutation_sym (sorted_perm _))).
    apply Hin. now exists t.
Qed.

















Lemma titles_of_group n g : forall k,
  List.length (filter is_tab_title
                 (flat_map (fun '(i, t) => tab_items n i t)
                           (enumerate_from k g)))
  = List.length g.
Proof.
  induction g as [| t g IH]; intros k; [reflexivity |].
  cbn [enumerate_from flat_map]. rewrite filter_app, length_app, IH.
  unfold tab_items. destruct (k <? n - 1)%nat; reflexivity.
Qed.

Lemma rules_of_group n g : forall k,
  k + List.length g = n ->
  List.length (filter is_rule
                 (flat_map (fun '(i, t) => tab_items n i t)
                           (enumerate_from k g)))
  = List.length g - 1.
Proof.
  induction g as [| t g IH]; intros k Hn; [reflexivity |].
  cbn [enumerate_from flat_map]. cbn [List.length] in Hn.
  rewrite filter_app, length_app, IH by lia.
  unfold tab_items. cbn [List.length].
  destruct (Nat.ltb_spec k (n - 1)); cbn; lia.
Qed.

Lemma titles_of_ports d ks :
  List.length (filter is_tab_title (flat_map (port_items d) ks))
  = List.length (flat_map (fun p => dict_get p d) ks).
Proof.
  induction ks as [| p ks IH]; [reflexivity |].
  cbn [flat_map]. rewrite filter_app, !length_app, IH.
  unfold port_items, enumerate. cbn [filter is_tab_title].
  now rewrite titles_of_group.
Qed.

Lemma rules_of_ports d ks :
  (forall p, In p ks -> dict_get p d <> []) ->
  List.length (filter is_rule (flat_map (port_items d) ks)) + List.length ks
  = List.length (flat_map (fun p => dict_get p d) ks).
Proof.
  induction ks as [| p ks IH]; intros Hne; [reflexivity |].
  cbn [flat_map]. rewrite filter_app, !length_app.
  specialize (IH (fun q Hq => Hne q (or_intror Hq))).
  unfold port_items at 1, enumerate. cbn [filter is_rule List.length].
  rewrite rules_of_group by reflexivity.
  assert (List.length (dict_get p d) <> 0).
  { intros H0. apply (Hne p (or_introl eq_refl)).
    now apply length_zero_iff_nil. }
  lia.
Qed.

(** X19.  The preview has one numbered title per stored tab, the numbers
    starting again at 1 for every port, and one rule between two tabs of a
    port but none after the last: titles are as many as tabs, and rules as
    many as tabs less the number of ports shown. *)
Theorem preview_layout tabs :
  List.length (filter is_tab_title (preview tabs)) = List.length tabs
  /\ List.length (filter is_rule (preview tabs))
     + List.length (sorted (dict_keys (tabs_by_port tabs)))
     = List.length tabs
  /\ forall p i t,
       nth_error (filter (fun t => (port t =? p)%Z) tabs) i = Some t ->
       In (Heading p (List.length (filter (fun t => (port t =? p)%Z) tabs)))
          (preview tabs)
       /\ In (TabTitle (i + 1) (title t)) (preview tabs)
       /\ In (Caption (url t)) (preview tabs).
Proof.
  assert (Hlen : List.length (shown_tabs tabs) = List.length tabs).
  { apply Permutation_length, groups_permutation_shown. }
  unfold preview, shown_tabs in *. cbv zeta in *.
  destruct (keys_of_tabs tabs) as [Hnd Hin].
  split; [now rewrite titles_of_ports |]. split.
  - rewrite rules_of_ports; [exact Hlen |].
    intros p Hp. apply (Permutation_in _ (sorted_perm _)) in Hp.
    apply Hin in Hp as (t & Ht & Hport).
    rewrite group_is_filter. intros Hnil.
    assert (Hint : In t (filter (from_port p) tabs)).
    { apply filter_In. split; [exact Ht |]. now apply Z.eqb_eq. }
    rewrite Hnil in Hint. destruct Hint.
  - intros p i t Hnth.
    assert (Hin_t : In t (filter (from_port p) tabs))
      by (eapply nth_error_In; exact Hnth).
    apply filter_In in Hin_t as [Ht Hport]. apply Z.eqb_eq in Hport.
    assert (Hp : In p (sorted (dict_keys (tabs_by_port tabs)))).
    { apply (Permutation_in _ (Permutation_sym (sorted_perm _))).
      apply Hin. now exists t. }
    assert (Hgroup : forall x, In x (port_items (tabs_by_port tabs) p) ->
                               In x (flat_map (port_items (tabs_by_port tabs))
                                              (sorted (dict_keys (tabs_by_port tabs))))).
    { intros x Hx. apply in_flat_map. now exists p. }
    unfold port_items in Hgroup. cbv zeta in Hgroup.
    rewrite group_is_filter in Hgroup.
    split; [apply Hgroup; now left |].
    assert (Hitems : forall x,
               In x (tab_items (List.length (filter (from_port p) tabs)) i t) ->
               In x (flat_map (port_items (tabs_by_port tabs))
                              (sorted (dict_keys (tabs_by_port tabs))))).
    { intros x Hx. apply Hgroup. right. apply in_flat_map.
      exists (i, t). split; [now apply in_enumerate | exact Hx]. }
    split; apply Hitems; unfold tab_items; cbn; auto.
Qed.


Lemma preview_layout_witness :
  nth_error (filter (fun t => (port t =? 9222)%Z) Orchestrator.tabs3) 1
  = Some {| port := 9222; window := 1; tab := 2;
            url := "https://y.test/b"; title := "News" |}
  /\ In (Heading 9222 2) (preview Orchestrator.tabs3)
  /\ In (TabTitle 2 "News") (preview Orchestrator.tabs3)
  /\ In (Caption "https://y.test/b") (preview Orchestrator.tabs3).
Proof.
  assert (Hnth : nth_error (filter (fun t => (port t =? 9222)%Z)
                                   Orchestrator.tabs3) 1
                 = Some {| port := 9222; window := 1; tab := 2;
                           url := "https://y.test/b"; title := "News" |})
    by reflexivity.
  split; [exact Hnth |].
  destruct (preview_layout Orchestrator.tabs3) as (_ & _ & Hitems).
  exact (Hitems 9222%Z 1 _ Hnth).
Defined.

End PreviewFacts.

Section TelemetryOrder.
Import Orchestrator Telemetry.

Lemma log_events_logging w tk out :
  Forall (fun e => is_logging e = true) (log_events w tk out).
Proof.
  apply Forall_forall. intros e He.
  apply in_log_events in He as [-> | [-> | [-> | ->]]]; reflexivity.
Qed.

(** X20.  The Galileo calls bracket the one call of the agent: whatever is
    called before the agent is an initialisation call or the opening of the
    trace, and whatever is called after it is a span, conclude, flush or
    configuration call. *)
Theorem telemetry_brackets_the_agent w tabs ct :
  tabs <> [] ->
  exists before after,
    trace (snd (run w tabs ct)) = before ++ EvAgent (task tabs ct) :: after
    /\ Forall (fun e => is_agent e = false /\ is_logging e = false) before
    /\ Forall (fun e => is_agent e = false /\ is_logging e = true) after.
Proof.
  intros Htabs. rewrite calls_of_run by exact Htabs.
  unfold calls_up_to_agent.
  exists (init_events w
          ++ (if session_started w
              then [EvStartTrace "Browser Tab Analysis" (task tabs ct)]
              else [])),
    (match agent_run w (task tabs ct) with
     | Ok a => log_events w (task tabs ct) (clean_analysis a)
     | Raise _ => []
     end).
  split; [now rewrite <- !app_assoc |]. split.
  - apply Forall_app. split.
    + unfold init_events.
      destruct (GALILEO_AVAILABLE w); [| constructor].
      destruct (is_ok (galileo_init w _ _)); [| now repeat constructor].
      destruct (is_ok (get_logger_instance w)); now repeat constructor.
    + destruct (session_started w); now repeat constructor.
  - destruct (agent_run w (task tabs ct)) as [a |]; [| constructor].
    generalize (log_events_logging w (task tabs ct) (clean_analysis a)).
    apply Forall_impl. intros e He. split; [| exact He]. now destruct e.
Qed.

Lemma telemetry_brackets_the_agent_witness :
  Orchestrator.tabs3 <> []
  /\ exists before after,
       trace (snd (run (world_logging (Ok None))
                       Orchestrator.tabs3 "List topics"))
       = before ++ EvAgent (task Orchestrator.tabs3 "List topics") :: after
       /\ Forall (fun e => is_agent e = false /\ is_logging e = false) before
       /\ Forall (fun e => is_agent e = false /\ is_logging e = true) after.
Proof.
  assert (Htabs : Orchestrator.tabs3 <> []) by discriminate.
  split; [exact Htabs |].
  exact (telemetry_brackets_the_agent (world_logging (Ok None))
           Orchestrator.tabs3 "List topics" Htabs).
Defined.

End TelemetryOrder.
